(** * Door-Config-Generator: the parser and the layout of generate_diagrams.py

    A shallow embedding of [parse_door_config] and [draw_panel_diagram],
    and of the loops of [main] and of the form that write the diagrams,
    with the properties of the stages.

    Conventions of the embedding.
    - A Python [str] is a list of characters; a character is a code point
      below 256 (Rocq's [ascii], read as Latin-1).  The character classes
      are those of Python's [re] and [str.isspace] on that range.
    - A Python [int] is a [Z]; [None] is [None].  [int] of a text raises
      [ValueError] above 4300 digits, the limit of CPython.
    - A Python [dict] is an insertion-ordered association list with
      unique keys: assignment to a key that is present replaces the value
      in place, assignment to a new key appends.
    - The data frame read from the CSV file is a list of rows with the two
      columns [Name] and [Value]; a cell is either missing (NaN) or holds
      a value, kept as the text [str()] gives for it.
    - The layout arithmetic, done on floats by the program, is carried
      out exactly, on rationals.
    - A box of a figure is kept as the rectangle the program computes and
      the padding of its box style; the box as drawn is the rectangle
      grown by the padding.
    - The file system is a parameter: it says which exception the making
      of a directory and the write of a figure raise, if any. *)

From Stdlib Require Import List Bool Arith ZArith NArith Lia.
From Stdlib Require Import Ascii String DecimalString.
From Stdlib Require Import Permutation Sorted.
From Stdlib Require Import QArith Lqa.
Import ListNotations.

Set Implicit Arguments.

(** ** Text *)

Definition text := list ascii.

(** A literal of the source, as text. *)
Definition str (s : string) : text := list_ascii_of_string s.

Definition code (c : ascii) : N := N_of_ascii c.

(** [\s] of [re], and [str.isspace]. *)
Definition is_space (c : ascii) : bool :=
  let n := code c in
  ((9 <=? n) && (n <=? 13) || (28 <=? n) && (n <=? 32)
   || (n =? 133) || (n =? 160))%N.

(** [\d] of [re]. *)
Definition is_digit (c : ascii) : bool :=
  let n := code c in ((48 <=? n) && (n <=? 57))%N.

Definition is_ascii_upper (c : ascii) : bool :=
  let n := code c in ((65 <=? n) && (n <=? 90))%N.

Definition is_ascii_lower (c : ascii) : bool :=
  let n := code c in ((97 <=? n) && (n <=? 122))%N.

(** [\w] of [re]: alphanumeric or underscore. *)
Definition is_word (c : ascii) : bool :=
  let n := code c in
  (is_digit c || is_ascii_upper c || is_ascii_lower c || (n =? 95)
   || (n =? 170) || (n =? 178) || (n =? 179) || (n =? 181)
   || (n =? 185) || (n =? 186) || (188 <=? n) && (n <=? 190)
   || (192 <=? n) && (n <=? 214) || (216 <=? n) && (n <=? 246)
   || (248 <=? n))%N.

(** Case folding of the letters a pattern of the source can hold. *)
Definition lower (c : ascii) : ascii :=
  if is_ascii_upper c then ascii_of_N (code c + 32) else c.

Definition eq_nocase (p c : ascii) : bool :=
  Ascii.eqb (lower p) (lower c).

Definition text_eqb (a b : text) : bool :=
  if list_eq_dec ascii_dec a b then true else false.

(** ** Regular expressions

    The fragment of [re] the two patterns of the source use, matched as
    [re] does: leftmost start, greedy repetition, backtracking. *)

Inductive cls := Digit | Space | Word.

Definition in_cls (k : cls) : ascii -> bool :=
  match k with
  | Digit => is_digit
  | Space => is_space
  | Word => is_word
  end.

Inductive item :=
| Lit (c : ascii)      (* a literal character, under IGNORECASE *)
| Plus (k : cls)       (* k+ *)
| Opt (c : ascii)      (* c? *)
| Cap (k : cls).       (* (k+), a capturing group *)

Definition pattern := list item.

Definition lits (s : string) : pattern := map Lit (str s).

(** Length of the longest prefix of [s] in class [k]. *)
Fixpoint run_length (k : cls) (s : text) : nat :=
  match s with
  | c :: s' => if in_cls k c then S (run_length k s') else 0
  | [] => 0
  end.

(** Greedy choice: the longest repetition first, then shorter ones, down
    to one character. *)
Fixpoint backtrack {A : Type} (f : nat -> option A) (n : nat) : option A :=
  match n with
  | O => None
  | S m =>
      match f n with
      | Some r => Some r
      | None => backtrack f m
      end
  end.

(** A match of [p] at the start of [s]: the captured groups, in order. *)
Fixpoint match_here (p : pattern) (s : text) {struct p} : option (list text) :=
  match p with
  | [] => Some []
  | Lit c :: p' =>
      match s with
      | a :: s' => if eq_nocase c a then match_here p' s' else None
      | [] => None
      end
  | Opt c :: p' =>
      match s with
      | a :: s' =>
          if eq_nocase c a then
            match match_here p' s' with
            | Some r => Some r
            | None => match_here p' s
            end
          else match_here p' s
      | [] => match_here p' s
      end
  | Plus k :: p' =>
      backtrack (fun n => match_here p' (skipn n s)) (run_length k s)
  | Cap k :: p' =>
      backtrack
        (fun n => option_map (cons (firstn n s)) (match_here p' (skipn n s)))
        (run_length k s)
  end.

(** [re.search]: the match at the leftmost position that has one. *)
Fixpoint search (p : pattern) (s : text) : option (list text) :=
  match match_here p s with
  | Some r => Some r
  | None =>
      match s with
      | [] => None
      | _ :: s' => search p s'
      end
  end.

(** r'subpanel\s+(\d+)\s+Address\s+(\d+)' *)
Definition pat_address : pattern :=
  lits "subpanel" ++ [Plus Space; Cap Digit; Plus Space]
  ++ lits "Address" ++ [Plus Space; Cap Digit].

(** r'Subpanel:(\d+)\s+\w+:?(\d+)' *)
Definition pat_input : pattern :=
  lits "Subpanel:" ++ [Cap Digit; Plus Space; Plus Word; Opt ":"; Cap Digit].

(** [int(g)] under [try ... except (ValueError, TypeError)]: the value of
    a string of decimal digits, [None] where [int] raises, which it does
    on a string of more than [sys.get_int_max_str_digits()] digits too. *)
Definition digit_val (c : ascii) : Z := Z.of_N (code c) - 48.

Definition max_str_digits : Z := 4300.

Definition digits_value (g : text) : Z :=
  fold_left (fun acc c => 10 * acc + digit_val c)%Z g 0%Z.

Definition py_int (g : text) : option Z :=
  match g with
  | [] => None
  | _ =>
      if forallb is_digit g
         && (Z.of_nat (List.length g) <=? max_str_digits)%Z
      then Some (digits_value g)
      else None
  end.

(** [m.group(i)], for [i >= 1]. *)
Definition group (m : list text) (i : nat) : text := nth (i - 1) m [].

(** ** Field Extractor *)

Record hw_info := mk_hw {
  subpanel : option Z;
  address : option Z;
  raw : text
}.

(** The match object the two searches of the source leave in [m]. *)
Definition find_match (raw_value : text) : option (list text) :=
  match search pat_address raw_value with
  | Some m => Some m
  | None => search pat_input raw_value
  end.

Definition extract (raw_value : text) : hw_info :=
  match find_match raw_value with
  | Some m => mk_hw (py_int (group m 1)) (py_int (group m 2)) raw_value
  | None => mk_hw None None raw_value
  end.

(** ** Python dictionaries *)

Class Key (K : Type) := keqb : K -> K -> bool.

#[export] Instance text_Key : Key text := text_eqb.
#[export] Instance Z_Key : Key Z := Z.eqb.

Definition dict (K V : Type) := list (K * V).

Section Dict.
Context {K V : Type} `{Key K}.

(** [d.get(k)]; [k in d] is [dict_get k d <> None]. *)
Fixpoint dict_get (k : K) (d : dict K V) : option V :=
  match d with
  | [] => None
  | (k', v) :: d' => if keqb k k' then Some v else dict_get k d'
  end.

(** [d[k] = v] *)
Fixpoint dict_set (k : K) (v : V) (d : dict K V) : dict K V :=
  match d with
  | [] => [(k, v)]
  | (k', v') :: d' =>
      if keqb k k' then (k', v) :: d' else (k', v') :: dict_set k v d'
  end.

Definition keys (d : dict K V) : list K := map fst d.
End Dict.

(** [d.setdefault(k, {})], read back. *)
Definition get_or_empty {K V W : Type} `{Key K} (k : K) (d : dict K (dict V W))
  : dict V W :=
  match dict_get k d with
  | Some v => v
  | None => []
  end.

(** ** The data frame *)

Inductive cell :=
| NaN
| Val (s : text).

Record row := mk_row { Name : cell; Value : cell }.

Definition DataFrame := list row.

(** [str(x)] of a cell. *)
Definition py_str (c : cell) : text :=
  match c with
  | NaN => str "nan"
  | Val s => s
  end.

(** [df['Name'] == s], row by row. *)
Definition name_is (s : string) (r : row) : bool :=
  match Name r with
  | Val t => text_eqb t (str s)
  | NaN => false
  end.

(** [df.index[mask].tolist()], counting rows from [i]. *)
Fixpoint indices_where (f : row -> bool) (df : list row) (i : nat) : list nat :=
  match df with
  | [] => []
  | r :: df' =>
      if f r then i :: indices_where f df' (S i) else indices_where f df' (S i)
  end.

(** [s.lstrip()], [s.rstrip()], [s.strip()] *)
Fixpoint lstrip (s : text) : text :=
  match s with
  | c :: s' => if is_space c then lstrip s' else s
  | [] => []
  end.

Definition rstrip (s : text) : text := rev (lstrip (rev s)).

Definition strip (s : text) : text := rstrip (lstrip s).

(** ** Hierarchy Builder *)

Record door := mk_door {
  door_index : Z;
  hardware : dict text hw_info
}.

Definition subpanel_t := dict text door.
Definition panel_t := dict Z subpanel_t.
Definition panels_t := dict text panel_t.

Definition hardware_fields : list text :=
  [str "Reader"; str "Alternate Reader"; str "Door Position";
   str "Strike"; str "Rex #1"; str "Rex #2"].

Definition priority : list text :=
  [str "Reader"; str "Door Position"; str "Strike"; str "Rex #1"; str "Rex #2"].

(** The body of the loop over the rows after the "Hardware" row. *)
Definition add_hardware (hardware_data : dict text hw_info) (r : row)
  : dict text hw_info :=
  match Name r with
  | Val name =>
      if existsb (text_eqb name) hardware_fields then
        let raw_value := match Value r with Val s => s | NaN => [] end in
        dict_set name (extract raw_value) hardware_data
      else hardware_data
  | NaN => hardware_data
  end.

Definition hardware_of_block (block : list row) : dict text hw_info :=
  match indices_where (name_is "Hardware") block 0 with
  | i :: _ => fold_left add_hardware (skipn (i + 1) block) []
  | [] => []
  end.

(** The loop over the priority list, left at the first field that has a
    subpanel: [(subpanel_num, door_index)]. *)
Fixpoint resolve (ks : list text) (hardware_data : dict text hw_info) : Z * Z :=
  match ks with
  | [] => (-1, -1)%Z
  | key :: ks' =>
      match dict_get key hardware_data with
      | Some info =>
          match subpanel info with
          | Some sp =>
              (sp, match address info with Some a => a | None => (-1)%Z end)
          | None => resolve ks' hardware_data
          end
      | None => resolve ks' hardware_data
      end
  end.

(** [panels_structure[panel_name][subpanel_num][door_name] = d], through
    the two [setdefault]s. *)
Definition insert_door (panel_name : text) (subpanel_num : Z)
    (door_name : text) (d : door) (ps : panels_t) : panels_t :=
  let panel_dict := get_or_empty panel_name ps in
  let subpanel_dict := get_or_empty subpanel_num panel_dict in
  dict_set panel_name
    (dict_set subpanel_num (dict_set door_name d subpanel_dict) panel_dict) ps.

(** Python exceptions the program can meet, and results that may raise. *)
Inductive exn := KeyError | OSError | ValueError.

Inductive result (A : Type) :=
| Ok (a : A)
| Raise (e : exn).
Arguments Ok {A} a.
Arguments Raise {A} e.

Definition bind {A B : Type} (r : result A) (f : A -> result B) : result B :=
  match r with
  | Ok a => f a
  | Raise e => Raise e
  end.

(** [df.loc[i, 'Name']]: a [KeyError] off the index. *)
Definition loc_Name (df : DataFrame) (i : nat) : result cell :=
  match nth_error df i with
  | Some r => Ok (Name r)
  | None => Raise KeyError
  end.

(** [df.loc[header_index:end_cfg - 1].reset_index(drop=True)]: the rows
    from [header_index] to [end_cfg - 1], both included. *)
Definition block_of (df : DataFrame) (header_index end_cfg : nat) : list row :=
  firstn (end_cfg - header_index) (skipn header_index df).

(** A door on its way into the structure: panel, subpanel, name, door. *)
Definition entry := (text * Z * text * door)%type.

(** What one section contributes: nothing where the loop body is left by
    [continue], else the bucket, the name and the door to insert. *)
Definition section_result (df : DataFrame) (se : nat * nat)
  : result (option entry) :=
  let '(start_cfg, end_cfg) := se in
  let header_index := (Z.of_nat start_cfg - 1)%Z in
  if (header_index <? 0)%Z then Ok None
  else
    let h := Z.to_nat header_index in
    bind (loc_Name df h) (fun name_cell =>
    let door_name := py_str name_cell in
    let block := block_of df h end_cfg in
    match filter (name_is "Panel") block with
    | [] => Ok None
    | panel_row :: _ =>
        let panel_name := strip (py_str (Value panel_row)) in
        let hardware_data := hardware_of_block block in
        let '(subpanel_num, door_index) := resolve priority hardware_data in
        Ok (Some (panel_name, subpanel_num, door_name,
                  mk_door door_index hardware_data))
    end).

Definition insert_entry (ps : panels_t) (r : option entry) : panels_t :=
  match r with
  | None => ps
  | Some (panel_name, subpanel_num, door_name, d) =>
      insert_door panel_name subpanel_num door_name d ps
  end.

(** One turn of the loop over the sections. *)
Definition process_section (df : DataFrame) (ps : panels_t) (se : nat * nat)
  : result panels_t :=
  bind (section_result df se) (fun r => Ok (insert_entry ps r)).

Definition cfg_indices (df : DataFrame) : list nat :=
  indices_where (name_is "Configuration and Communication Settings") df 0
  ++ [List.length df].

(** The pairs [(cfg_indices[idx], cfg_indices[idx + 1])]. *)
Definition sections (df : DataFrame) : list (nat * nat) :=
  combine (cfg_indices df) (tl (cfg_indices df)).

(** The loop over the sections, from the structure [acc]. *)
Definition parse_loop (df : DataFrame) (l : list (nat * nat))
    (acc : result panels_t) : result panels_t :=
  fold_left (fun acc se => bind acc (fun ps => process_section df ps se)) l acc.

Definition parse_door_config (df : DataFrame) : result panels_t :=
  parse_loop df (sections df) (Ok []).

(** ** Sorting

    [sorted(l, key=f)] is a stable sort; the stable sort of a list is
    unique, and insertion at the front of the equal keys computes it. *)

Fixpoint insert_by {A : Type} (f : A -> Z) (x : A) (l : list A) : list A :=
  match l with
  | [] => [x]
  | y :: l' => if (f x <=? f y)%Z then x :: l else y :: insert_by f x l'
  end.

Definition sorted_by {A : Type} (f : A -> Z) (l : list A) : list A :=
  fold_right (insert_by f) [] l.

(** [lambda kv: kv[1]['door_index'] if kv[1]['door_index'] >= 0 else 99] *)
Definition door_key (kv : text * door) : Z :=
  if (door_index (snd kv) >=? 0)%Z then door_index (snd kv) else 99%Z.

Definition door_items (doors : subpanel_t) : list (text * door) :=
  sorted_by door_key doors.

(** ** Door labels *)

Fixpoint is_prefix (p s : text) : bool :=
  match p, s with
  | [], _ => true
  | a :: p', b :: s' => Ascii.eqb a b && is_prefix p' s'
  | _ :: _, [] => false
  end.

(** [s.replace(old, new)] for a non-empty [old]: the occurrences of [old]
    from the left, without overlap; [skip] counts the characters of an
    occurrence still to drop. *)
Fixpoint replace_from (old new : text) (skip : nat) (s : text) : text :=
  match s with
  | [] => []
  | c :: s' =>
      match skip with
      | S k => replace_from old new k s'
      | O =>
          if is_prefix old s
          then new ++ replace_from old new (List.length old - 1) s'
          else c :: replace_from old new 0 s'
      end
  end.

Definition py_replace (old new : string) (s : text) : text :=
  replace_from (str old) (str new) 0 s.

Definition short_label (key : text) : text :=
  py_replace "Reader" "RDR Output"
    (py_replace "Rex #2" "REX2 Input"
       (py_replace "Rex #1" "REX1 Input"
          (py_replace "Strike" "LOCK Output"
             (py_replace "Door Position" "DPOS" key)))).

(** [f"{z}"] of an integer. *)
Definition fmt_int (z : Z) : text := str (NilEmpty.string_of_int (Z.to_int z)).

(** The body of the loop over the five hardware kinds. *)
Definition hardware_line (hw : dict text hw_info) (lines : list text)
    (key : text) : list text :=
  match dict_get key hw with
  | Some info =>
      match address info with
      | Some addr =>
          if (addr >? 0)%Z
          then lines ++ [short_label key ++ str ":" ++ fmt_int addr]
          else lines
      | None => lines
      end
  | None => lines
  end.

Definition label_lines (door_name : text) (door_data : door) : list text :=
  let lines := [door_name] in
  let lines :=
    if (door_index door_data >? 0)%Z
    then lines ++ [str "Addr: " ++ fmt_int (door_index door_data)]
    else lines in
  fold_left (hardware_line (hardware door_data)) priority lines.

(** [sep.join(lines)] *)
Fixpoint join (sep : text) (lines : list text) : text :=
  match lines with
  | [] => []
  | [l] => l
  | l :: ls => l ++ sep ++ join sep ls
  end.

Definition newline : text := ["010"%char].

Definition label (door_name : text) (door_data : door) : text :=
  join newline (label_lines door_name door_data).

(** ** Layout Engine *)

(** A rectangle: lower left corner, width and height. *)
Record rect := mk_rect { rx : Q; ry : Q; rw : Q; rh : Q }.

Inductive color := Black | Blue | Green.

Inductive artist :=
| Patch (r : rect) (pad : Q) (edgecolor : color)
    (* ax.add_patch(FancyBboxPatch((x, y), w, h, boxstyle="round,pad=...")) *)
| Text (x y : Q) (s : text)             (* ax.text(x, y, s, ...) *)
| Line (x y1 y2 : Q).                   (* ax.plot([x, x], [y1, y2]) *)

Record figure := mk_figure { figsize : Q * Q; artists : list artist }.

(** The padding of the box style of every box, "round,pad=0.02". *)
Definition box_pad : Q := 0.02.

(** The box a patch draws: its rectangle, grown by the padding on each
    side. *)
Definition grow (pad : Q) (r : rect) : rect :=
  mk_rect (rx r - pad) (ry r - pad) (rw r + 2 * pad) (rh r + 2 * pad).

Definition Qnat (n : nat) : Q := inject_Z (Z.of_nat n).

Definition qmax (a b : Q) : Q := if Qle_bool a b then b else a.

Definition panel_x : Q := 0.5.
Definition panel_y : Q := 0.95.
Definition panel_width : Q := 0.4.
Definition panel_height : Q := 0.08.
Definition sub_height : Q := 0.1.
Definition sub_y : Q := 0.75.
Definition door_region_top : Q := 0.6.
Definition door_region_bottom : Q := 0.1.
Definition door_region_height : Q := door_region_top - door_region_bottom.

Definition door_height (m : nat) : Q := door_region_height / Qnat m * 0.8.
Definition door_spacing (m : nat) : Q := door_region_height / Qnat m * 0.2.

Definition panel_rect : rect :=
  mk_rect (panel_x - panel_width / 2) (panel_y - panel_height / 2)
    panel_width panel_height.

(** Column [i] of [n]. *)
Definition col_start (n i : nat) : Q := Qnat i / Qnat n.
Definition col_end (n i : nat) : Q := Qnat (i + 1) / Qnat n.
Definition sub_x_center (n i : nat) : Q := (col_start n i + col_end n i) / 2.
Definition sub_width (n i : nat) : Q := (col_end n i - col_start n i) * 0.8.

Definition sub_rect (n i : nat) : rect :=
  mk_rect (sub_x_center n i - sub_width n i / 2) (sub_y - sub_height / 2)
    (sub_width n i) sub_height.

Definition door_rect (n i m : nat) (y_cursor : Q) : rect :=
  let d_width := sub_width n i * 0.9 in
  mk_rect (sub_x_center n i - d_width / 2) (y_cursor - door_height m / 2)
    d_width (door_height m).

(** The loop over the sorted doors of one subpanel; [y_cursor] is the
    centre of the next door box. *)
Fixpoint draw_doors (show_lines : bool) (n i m : nat) (y_cursor : Q)
    (items : list (text * door)) : list artist :=
  match items with
  | [] => []
  | (door_name, door_data) :: rest =>
      (if show_lines
       then [Line (sub_x_center n i) (sub_y - sub_height / 2)
               (y_cursor + door_height m / 2)]
       else [])
      ++ [Patch (door_rect n i m y_cursor) box_pad Green;
          Text (sub_x_center n i) y_cursor (label door_name door_data)]
      ++ draw_doors show_lines n i m
           (y_cursor - (door_height m + door_spacing m)) rest
  end.

Definition sp_label (sp : Z) : text :=
  str "Subpanel " ++ fmt_int sp ++ newline
  ++ (if (sp =? 0)%Z then str "Internal SIO" else str "MR52").

(** One turn of the loop over the sorted subpanel numbers. *)
Definition draw_subpanel (show_lines : bool) (subpanels : panel_t)
    (n i : nat) (sp : Z) : list artist :=
  (if show_lines
   then [Line (sub_x_center n i) (panel_y - panel_height / 2)
           (sub_y + sub_height / 2)]
   else [])
  ++ [Patch (sub_rect n i) box_pad Blue;
      Text (sub_x_center n i) sub_y (sp_label sp)]
  ++ let doors := get_or_empty sp subpanels in  (* subpanels[sp] *)
     let m := List.length doors in
     if (m =? 0)%nat then []
     else draw_doors show_lines n i m (door_region_top - door_height m / 2)
            (door_items doors).

(** [for i, sp in enumerate(subpanel_numbers)], from index [i]. *)
Fixpoint draw_subpanels (show_lines : bool) (subpanels : panel_t)
    (n i : nat) (subpanel_numbers : list Z) : list artist :=
  match subpanel_numbers with
  | [] => []
  | sp :: rest =>
      draw_subpanel show_lines subpanels n i sp
      ++ draw_subpanels show_lines subpanels n (S i) rest
  end.

(** The figure [draw_panel_diagram] builds and saves; [None] where it
    returns before building one. *)
Definition diagram (panel_name : text) (subpanels : panel_t)
    (show_lines : bool) : option figure :=
  let n := List.length subpanels in
  if (n =? 0)%nat then None
  else
    let max_doors :=
      fold_right Nat.max 0%nat (map (fun kv => List.length (snd kv)) subpanels) in
    let fig_width := qmax 12 (3 * Qnat n) in
    let fig_height := qmax 6 (2 + 1.5 * Qnat max_doors) in
    let subpanel_numbers := sorted_by (fun sp => sp) (keys subpanels) in
    Some (mk_figure (fig_width, fig_height)
            ([Patch panel_rect box_pad Black;
              Text panel_x panel_y (str "Panel" ++ newline ++ panel_name)]
             ++ draw_subpanels show_lines subpanels n 0 subpanel_numbers)).

(** The files written so far, by path. *)
Definition files := dict text figure.

(** What the file system and the renderer answer: the exception
    [os.makedirs(path, exist_ok=True)] raises, if it raises one, and the
    exception the write of the figure [fig] at [path] raises, with the
    files [fs] written so far, if it raises one. *)
Record file_system := mk_file_system {
  makedirs_raises : text -> option exn;
  savefig_raises : files -> figure -> text -> option exn
}.

(** [fig.savefig(output_file, ...)]: the file is written, or the write
    raises (as it does with [FileNotFoundError], an [OSError], for a path
    into a directory that is missing) and leaves the files as they
    were. *)
Definition savefig (sys : file_system) (fig : figure) (output_file : text)
    (fs : files) : result files :=
  match savefig_raises sys fs fig output_file with
  | None => Ok (dict_set output_file fig fs)
  | Some e => Raise e
  end.

Definition draw_panel_diagram (sys : file_system) (panel_name : text)
    (subpanels : panel_t) (output_file : text) (show_lines : bool)
    (fs : files) : result files :=
  match diagram panel_name subpanels show_lines with
  | None => Ok fs
  | Some fig => savefig sys fig output_file fs
  end.

(** The rectangles of the boxes of a list of artists, in the order they
    are drawn, and the boxes as drawn, with their padding. *)
Definition boxes (l : list artist) : list rect :=
  flat_map (fun a => match a with Patch r _ _ => [r] | _ => [] end) l.

Definition outlines (l : list artist) : list rect :=
  flat_map (fun a => match a with Patch r pad _ => [grow pad r] | _ => [] end) l.

(** Every box of the list is drawn with the padding [pad]. *)
Definition pads_are (pad : Q) (l : list artist) : Prop :=
  Forall (fun a => match a with Patch _ p _ => p = pad | _ => True end) l.

(** ** Vocabulary of the statements *)

(** Equality of keys decided by [keqb]. *)
Class KeyLaws (K : Type) `{Key K} :=
  keqb_eq : forall a b : K, keqb a b = true <-> a = b.
Arguments KeyLaws K {_}.

(** [ps[p][s][n]], absent where one of the keys is. *)
Definition lookup3 (ps : panels_t) (p : text) (s : Z) (n : text) : option door :=
  match dict_get p ps with
  | Some pd =>
      match dict_get s pd with
      | Some sd => dict_get n sd
      | None => None
      end
  | None => None
  end.

(** Every door of the structure, with its panel, subpanel and name. *)
Definition entries (ps : panels_t) : list entry :=
  flat_map
    (fun ppd =>
       flat_map
         (fun ssd => map (fun nd => (fst ppd, fst ssd, fst nd, snd nd)) (snd ssd))
         (snd ppd))
    ps.

Definition key3 (e : entry) : text * Z * text :=
  let '(p, s, n, _) := e in (p, s, n).

Definition key3_eqb (a b : text * Z * text) : bool :=
  let '(p, s, n) := a in
  let '(p', s', n') := b in
  text_eqb p p' && (s =? s')%Z && text_eqb n n'.

(** The door written last under the key [k], in a run of the loop that
    contributes [rs]. *)
Definition last_write (k : text * Z * text) (rs : list (option entry))
  : option door :=
  fold_left
    (fun acc r =>
       match r with
       | Some (p, s, n, d) => if key3_eqb (p, s, n) k then Some d else acc
       | None => acc
       end)
    rs None.

(** Keys are unique at the three levels of the structure. *)
Definition wf_panels (ps : panels_t) : Prop :=
  NoDup (keys ps)
  /\ forall p pd, In (p, pd) ps ->
       NoDup (keys pd)
       /\ forall s sd, In (s, sd) pd -> NoDup (keys sd).

(** What the section [se] contributes. *)
Definition outcome (df : DataFrame) (se : nat * nat) : option entry :=
  match section_result df se with
  | Ok r => r
  | Raise _ => None
  end.

(** A section without a row above its first row, or without a "Panel"
    row. *)
Definition malformed (df : DataFrame) (se : nat * nat) : Prop :=
  fst se = 0%nat
  \/ filter (name_is "Panel") (block_of df (fst se - 1) (snd se)) = [].

(** The field [k] of [hw] gives no subpanel. *)
Definition no_subpanel (hw : dict text hw_info) (k : text) : Prop :=
  match dict_get k hw with
  | Some info => subpanel info = None
  | None => True
  end.

Definition or_minus_one (a : option Z) : Z :=
  match a with
  | Some z => z
  | None => (-1)%Z
  end.

(** [w] is [s] in some casing. *)
Definition same_nocase (w : text) (s : string) : Prop :=
  map lower w = map lower (str s).

(** [t] contains [s] in some casing. *)
Definition contains_nocase (s : string) (t : text) : Prop :=
  exists pre mid post, t = pre ++ mid ++ post /\ same_nocase mid s.

(** A non-empty run of characters of class [k]. *)
Definition run_of (k : cls) (w : text) : Prop :=
  w <> [] /\ forallb (in_cls k) w = true.

(** [s] does not go on with a character of class [k]. *)
Definition stops (k : cls) (s : text) : Prop :=
  match s with
  | c :: _ => in_cls k c = false
  | [] => True
  end.

(** No match of [p] starts at one of the first [n] positions of [t]. *)
Definition no_match_before (p : pattern) (n : nat) (t : text) : Prop :=
  forall j, (j < n)%nat -> match_here p (skipn j t) = None.

(** The word "subpanel", blanks, an integer, then after any text [mid] the
    word "Address", blanks and an integer: the reading of the first
    pattern that lets anything stand between the two parts. *)
Definition loose_occurrence (t : text) : Prop :=
  exists pre w1 ws1 d1 mid w2 ws3 d2 post,
    t = pre ++ w1 ++ ws1 ++ d1 ++ mid ++ w2 ++ ws3 ++ d2 ++ post
    /\ same_nocase w1 "subpanel" /\ run_of Space ws1 /\ run_of Digit d1
    /\ same_nocase w2 "Address" /\ run_of Space ws3 /\ run_of Digit d2.

(** [w] holds blanks only. *)
Definition blank (w : text) : Prop := forallb is_space w = true.

(** The texts of a list of artists, in the order they are drawn. *)
Definition texts (l : list artist) : list text :=
  flat_map (fun a => match a with Text _ _ s => [s] | _ => [] end) l.

(** A door without an index, and a door with one. *)
Definition unresolved (kv : text * door) : bool :=
  (door_index (snd kv) <? 0)%Z.

Definition resolved (kv : text * door) : bool := negb (unresolved kv).

Definition by_key (a b : text * door) : Prop := (door_key a <= door_key b)%Z.

Definition by_index (a b : text * door) : Prop :=
  (door_index (snd a) <= door_index (snd b))%Z.

(** A door that has nothing but an index. *)
Definition plain_door (i : Z) : door := mk_door i [].

(** Doors with the indices 5, -1, 2, -1, 1, named in that order. *)
Definition sample_doors : subpanel_t :=
  [(str "a", plain_door 5); (str "b", plain_door (-1));
   (str "c", plain_door 2); (str "d", plain_door (-1));
   (str "e", plain_door 1)].

(** A panel of one subpanel with three doors. *)
Definition three_door_panel : panel_t :=
  [(1%Z, [(str "a", plain_door 1); (str "b", plain_door 2);
          (str "c", plain_door 3)])].

(** The label as the specification words it: the fixed renames, a line
    for a kind that is present with an address above 0, and the lines in
    the order name, address, kinds. *)
Definition spec_renames : dict text text :=
  [(str "Door Position", str "DPOS"); (str "Strike", str "LOCK Output");
   (str "Rex #1", str "REX1 Input"); (str "Rex #2", str "REX2 Input");
   (str "Reader", str "RDR Output")].

Definition spec_short (kind : text) : text :=
  match dict_get kind spec_renames with
  | Some short => short
  | None => kind
  end.

Definition spec_kind_line (hw : dict text hw_info) (kind : text) : list text :=
  match dict_get kind hw with
  | Some info =>
      match address info with
      | Some addr =>
          if (0 <? addr)%Z then [spec_short kind ++ str ":" ++ fmt_int addr]
          else []
      | None => []
      end
  | None => []
  end.

Definition spec_label_lines (door_name : text) (d : door) : list text :=
  [door_name]
  ++ (if (0 <? door_index d)%Z
      then [str "Addr: " ++ fmt_int (door_index d)] else [])
  ++ flat_map (spec_kind_line (hardware d))
       [str "Reader"; str "Door Position"; str "Strike"; str "Rex #1";
        str "Rex #2"].

(** Geometry of boxes.  A box lies in the unit square; two boxes do not
    overlap when one ends before the other starts on one of the axes;
    the second is apart below the first when its top is under the
    first's bottom. *)
Definition in_unit (b : rect) : Prop :=
  0 <= rx b /\ rx b + rw b <= 1 /\ 0 <= ry b /\ ry b + rh b <= 1.

Definition disjoint (a b : rect) : Prop :=
  rx a + rw a <= rx b \/ rx b + rw b <= rx a
  \/ ry a + rh a <= ry b \/ ry b + rh b <= ry a.

Definition apart (a b : rect) : Prop := ry b + rh b < ry a.

(** The box lies in column [i] of [n], between the heights [lo] and
    [hi]. *)
Definition in_cell (n i : nat) (lo hi : Q) (b : rect) : Prop :=
  col_start n i <= rx b /\ rx b + rw b <= col_end n i
  /\ lo <= ry b /\ ry b + rh b <= hi.

(** The door boxes of a subpanel with [m] doors, the centre of the first
    at [y_cursor], [k] of them. *)
Fixpoint door_rects (n i m : nat) (y_cursor : Q) (k : nat) : list rect :=
  match k with
  | O => []
  | S k' =>
      door_rect n i m y_cursor
      :: door_rects n i m (y_cursor - (door_height m + door_spacing m)) k'
  end.

(** The share of the band of doors each of [m] doors has. *)
Definition door_share (m : nat) : Q := door_region_height / Qnat m.

(** ** A sample table *)

Definition data_row (name value : string) : row :=
  mk_row (Val (str name)) (Val (str value)).

Definition bare_row (name : string) : row := mk_row (Val (str name)) NaN.

Definition sentinel_row : row :=
  bare_row "Configuration and Communication Settings".

(** Five sections: the first starts at row 0, the second has no "Panel"
    row, the third and the fourth are two doors of one panel, written
    with and without blanks around its name, the fifth has the name and
    the bucket of the third. *)
Definition sample_table : DataFrame :=
  [ sentinel_row;
    data_row "Panel" "Gym";
    bare_row "Door B";
    sentinel_row;
    bare_row "Hardware";
    data_row "Reader" "Reader on subpanel 1 Address 4";
    bare_row "Door C";
    sentinel_row;
    data_row "Panel" " Gym ";
    bare_row "Hardware";
    data_row "Strike" "Relay (Subpanel:1 Output:2)";
    data_row "Reader" "Onboard reader";
    bare_row "Door D";
    sentinel_row;
    data_row "Panel" "Gym";
    bare_row "Hardware";
    data_row "Door Position" "Input on subpanel 1 address 3";
    bare_row "Door C";
    sentinel_row;
    data_row "Panel" "Gym";
    bare_row "Hardware";
    data_row "Reader" "Reader on subpanel 1 Address 9" ].

(** One door of a panel whose name holds a "/". *)
Definition slash_table : DataFrame :=
  [ bare_row "Door A";
    sentinel_row;
    data_row "Panel" "A/B";
    bare_row "Hardware";
    data_row "Reader" "Reader on subpanel 1 Address 4" ].

Definition sample_door_C : door :=
  mk_door 2
    [(str "Strike",
      mk_hw (Some 1%Z) (Some 2%Z) (str "Relay (Subpanel:1 Output:2)"));
     (str "Reader", mk_hw None None (str "Onboard reader"))].

(** ** Running the generator

    The loops of [main] and of the form's [run_generation] over the
    parsed panels.  [path_join] stands for [os.path.join], [sys] for the
    file system. *)

(** What a run leaves: the files, the lines printed, and the exception
    that ended it, if one did. *)
Record trace := mk_trace {
  t_files : files;
  t_stdout : list text;
  t_raised : option exn
}.

Section Generator.
Variable path_join : text -> text -> text.
Variable sys : file_system.

(** [panel_name.replace(' ', '_')] *)
Definition safe_name (panel_name : text) : text :=
  py_replace " " "_" panel_name.

(** [os.path.join(out_dir, f"{safe_name}.png")] *)
Definition output_path (out_dir panel_name : text) : text :=
  path_join out_dir (safe_name panel_name ++ str ".png").


(** The loop of [main]: a turn draws the diagram of a panel and prints a
    line; an exception of the drawing ends the loop, nothing caught. *)
Fixpoint write_diagrams (panels : panels_t) (out_dir : text)
    (show_lines : bool) (fs : files) (stdout : list text) : trace :=
  match panels with
  | [] => mk_trace fs stdout None
  | (panel_name, subpanels) :: rest =>
      let output_file := output_path out_dir panel_name in
      match
        draw_panel_diagram sys panel_name subpanels output_file show_lines fs
      with
      | Ok fs' =>
          write_diagrams rest out_dir show_lines fs'
            (stdout
             ++ [str "Wrote diagram for " ++ panel_name ++ str " to "
                 ++ output_file])
      | Raise e => mk_trace fs stdout (Some e)
      end
  end.

(** [main] from the parse on: a notice where there is no panel, else the
    output directory is made and the loop run. *)
Definition generate (csv_path out_dir : text) (show_lines : bool)
    (panels : panels_t) (fs : files) : trace :=
  match panels with
  | [] =>
      mk_trace fs
        [str "No panels found in '" ++ csv_path
         ++ str "'. Check that the file matches the expected format."]
        None
  | _ :: _ =>
      match makedirs_raises sys out_dir with
      | None => write_diagrams panels out_dir show_lines fs []
      | Some e => mk_trace fs [] (Some e)
      end
  end.

(** [main] on the table read from [csv_path]. *)
Definition run (df : DataFrame) (csv_path out_dir : text) (show_lines : bool)
    (fs : files) : trace :=
  match parse_door_config df with
  | Ok panels => generate csv_path out_dir show_lines panels fs
  | Raise e => mk_trace fs [] (Some e)
  end.


End Generator.

(** [posixpath.join] of two parts, to run the loops on. *)
Definition posix_join (a b : text) : text :=
  match b with
  | "/"%char :: _ => b
  | _ =>
      match rev a with
      | [] => b
      | "/"%char :: _ => a ++ b
      | _ => a ++ str "/" ++ b
      end
  end.

(** A file system to run the loops on: every directory can be made, and
    a file can be written in the directory [dir] itself, that is at a
    path that has no further "/" after [dir] and its "/"; a write
    elsewhere raises an [OSError]. *)
Definition flat_dir (dir : text) : file_system :=
  mk_file_system (fun _ => None)
    (fun _ _ path =>
       if is_prefix (dir ++ str "/") path
          && negb (existsb (Ascii.eqb "/")
                     (skipn (List.length dir + 1) path))
       then None
       else Some OSError).

(** ** Vocabulary of the further statements *)

(** The connector lines, the places of the texts and the centre of a
    box. *)
Definition connectors (l : list artist) : list (Q * Q * Q) :=
  flat_map (fun a => match a with Line x y1 y2 => [(x, y1, y2)] | _ => [] end) l.

Definition text_points (l : list artist) : list (Q * Q) :=
  flat_map (fun a => match a with Text x y _ => [(x, y)] | _ => [] end) l.

Definition centre (b : rect) : Q * Q := (rx b + rw b / 2, ry b + rh b / 2).

Definition same_point (a b : Q * Q) : Prop :=
  fst a == fst b /\ snd a == snd b.

(** The number of doors of a panel. *)
Definition door_count (subpanels : panel_t) : nat :=
  fold_right (fun kv acc => (List.length (snd kv) + acc)%nat) 0%nat subpanels.

(** The value of a field of the hardware block: that of the last row of
    the field. *)
Definition last_field (k : text) (rows : list row) (start : option hw_info)
  : option hw_info :=
  fold_left
    (fun acc r =>
       match Name r with
       | Val name =>
           if text_eqb k name && existsb (text_eqb name) hardware_fields
           then Some (extract (match Value r with Val s => s | NaN => [] end))
           else acc
       | NaN => acc
       end)
    rows start.

(** The names in the order they are first met. *)
Definition first_seen (names : list text) (start : list text) : list text :=
  fold_left
    (fun acc p => if existsb (text_eqb p) acc then acc else acc ++ [p])
    names start.

Definition panel_of (e : entry) : text := fst (fst (fst e)).

(** The entries among the contributions of the sections. *)
Definition written (rs : list (option entry)) : list entry :=
  flat_map (fun r => match r with Some e => [e] | None => [] end) rs.

(** No panel without a subpanel, no subpanel without a door. *)
Definition populated (ps : panels_t) : Prop :=
  forall p pd, In (p, pd) ps ->
    pd <> [] /\ forall s sd, In (s, sd) pd -> sd <> [].

(** What every extracted field is like: it is the extraction of its raw
    text, and what it has of subpanel and address is not negative. *)
Definition well_formed_info (info : hw_info) : Prop :=
  info = extract (raw info)
  /\ (forall sp, subpanel info = Some sp -> (0 <= sp)%Z)
  /\ (forall ad, address info = Some ad -> (0 <= ad)%Z).

(** What holds of the dictionary of fields of a door, row after row. *)
Definition hardware_ok (hd : dict text hw_info) : Prop :=
  NoDup (keys hd)
  /\ forall k info, In (k, info) hd ->
       In k hardware_fields /\ exists t, info = extract t.


(** A panel of two subpanels, and the fourth door of the sample table. *)
Definition sample_panel : panel_t :=
  [(3%Z, sample_doors); (0%Z, [(str "f", plain_door 4)])].

Definition sample_door_D : door :=
  mk_door 3
    [(str "Door Position",
      mk_hw (Some 1%Z) (Some 3%Z) (str "Input on subpanel 1 address 3"))].

(** * Properties *)

(** ** Characters *)

Ltac each_char a := destruct a as [[|] [|] [|] [|] [|] [|] [|] [|]].

Lemma space_not_digit (a : ascii) : is_space a = true -> is_digit a = false.
Proof. each_char a; vm_compute; congruence. Qed.

Lemma digit_not_space (a : ascii) : is_digit a = true -> is_space a = false.
Proof. each_char a; vm_compute; congruence. Qed.

Lemma digit_is_word (a : ascii) : is_digit a = true -> is_word a = true.
Proof. each_char a; vm_compute; congruence. Qed.

Lemma letter_not_space (a : ascii) :
  is_ascii_lower (lower a) = true -> is_space a = false.
Proof. each_char a; vm_compute; congruence. Qed.

Lemma letter_is_word (a : ascii) :
  is_ascii_lower (lower a) = true -> is_word a = true.
Proof. each_char a; vm_compute; congruence. Qed.

Lemma lower_fixed (a c : ascii) :
  is_ascii_lower c = false -> lower a = c -> a = c.
Proof.
  intros Hc <-. revert Hc. each_char a; vm_compute; congruence.
Qed.

Lemma eq_nocase_lower (p a : ascii) : lower a = lower p -> eq_nocase p a = true.
Proof. intros E. unfold eq_nocase. rewrite E. apply Ascii.eqb_refl. Qed.

Lemma text_eqb_eq (a b : text) : text_eqb a b = true <-> a = b.
Proof.
  unfold text_eqb. destruct (list_eq_dec ascii_dec a b); split; congruence.
Qed.

Lemma text_eqb_refl (a : text) : text_eqb a a = true.
Proof. now apply text_eqb_eq. Qed.

(** A text without lower-case letters has one casing. *)
Lemma nocase_exact (s m : text) :
  forallb (fun c => negb (is_ascii_lower c)) s = true ->
  map lower m = s -> m = s.
Proof.
  revert m. induction s as [|c s IH]; intros [|a m] Hs E; try discriminate.
  - reflexivity.
  - simpl in Hs, E. apply andb_true_iff in Hs as [Hc Hs].
    injection E as Ea Em. f_equal.
    + apply lower_fixed; [now apply negb_true_iff|assumption].
    + now apply IH.
Qed.

(** ** The matcher *)

Lemma match_here_lits (s w : text) (p : pattern) (rest : text) :
  map lower w = map lower s ->
  match_here (map Lit s ++ p) (w ++ rest) = match_here p rest.
Proof.
  revert w. induction s as [|c s IH]; intros [|a w] E; try discriminate.
  - reflexivity.
  - simpl in E. injection E as Ea Ew. simpl.
    rewrite (eq_nocase_lower _ _ Ea). now apply IH.
Qed.

Lemma run_length_app (k : cls) (ws rest : text) :
  forallb (in_cls k) ws = true -> stops k rest ->
  run_length k (ws ++ rest) = List.length ws.
Proof.
  intros Hws Hrest.
  induction ws as [|c ws IH]; cbn [run_length app List.length].
  - destruct rest as [|c rest]; [reflexivity|].
    cbn [run_length stops] in *. now rewrite Hrest.
  - cbn [forallb] in Hws. apply andb_true_iff in Hws as [Hc Hws].
    rewrite Hc. f_equal. now apply IH.
Qed.

Lemma run_length_ge (k : cls) (ws rest : text) :
  forallb (in_cls k) ws = true ->
  (List.length ws <= run_length k (ws ++ rest))%nat.
Proof.
  intros Hws.
  induction ws as [|c ws IH]; cbn [run_length app List.length]; [lia|].
  cbn [forallb] in Hws. apply andb_true_iff in Hws as [Hc Hws].
  rewrite Hc. apply le_n_S. now apply IH.
Qed.

Lemma backtrack_first {A : Type} (f : nat -> option A) (n : nat) (r : A) :
  n <> 0%nat -> f n = Some r -> backtrack f n = Some r.
Proof. intros Hn E. destruct n; [congruence|]. simpl. now rewrite E. Qed.

Lemma length_nonempty (w : text) : w <> [] -> List.length w <> 0%nat.
Proof. destruct w; simpl; congruence. Qed.

Lemma backtrack_some {A : Type} (f : nat -> option A) (n k : nat) :
  (1 <= k <= n)%nat -> f k <> None -> backtrack f n <> None.
Proof.
  intros Hk Hf. induction n as [|n IH]; [lia|].
  simpl. destruct (f (S n)) eqn:E; [discriminate|].
  apply IH. destruct (Nat.eq_dec k (S n)) as [->|]; [congruence|lia].
Qed.

Lemma backtrack_none {A : Type} (f : nat -> option A) (n : nat) :
  (forall k, (1 <= k <= n)%nat -> f k = None) -> backtrack f n = None.
Proof.
  intros Hf. induction n as [|n IH]; [reflexivity|].
  simpl. rewrite Hf by lia. apply IH. intros k Hk. apply Hf. lia.
Qed.

Lemma skipn_run (ws rest : text) : skipn (List.length ws) (ws ++ rest) = rest.
Proof. induction ws; simpl; auto. Qed.

Lemma firstn_run (ws rest : text) : firstn (List.length ws) (ws ++ rest) = ws.
Proof. induction ws; simpl; [reflexivity|now f_equal]. Qed.

(** A repetition that cannot go further takes exactly its run. *)
Lemma match_here_plus (k : cls) (p : pattern) (ws rest : text) (r : list text) :
  run_of k ws -> stops k rest ->
  match_here p rest = Some r ->
  match_here (Plus k :: p) (ws ++ rest) = Some r.
Proof.
  intros [Hne Hws] Hrest Hp. simpl.
  rewrite (run_length_app _ _ _ Hws Hrest).
  apply backtrack_first; [now apply length_nonempty|].
  now rewrite skipn_run.
Qed.

Lemma match_here_cap (k : cls) (p : pattern) (ws rest : text) (r : list text) :
  run_of k ws -> stops k rest ->
  match_here p rest = Some r ->
  match_here (Cap k :: p) (ws ++ rest) = Some (ws :: r).
Proof.
  intros [Hne Hws] Hrest Hp. simpl.
  rewrite (run_length_app _ _ _ Hws Hrest).
  apply backtrack_first; [now apply length_nonempty|].
  now rewrite skipn_run, firstn_run, Hp.
Qed.

Lemma match_here_opt (c a : ascii) (p : pattern) (s : text) (r : list text) :
  eq_nocase c a = true -> match_here p s = Some r ->
  match_here (Opt c :: p) (a :: s) = Some r.
Proof. intros E Hp. cbn [match_here]. now rewrite E, Hp. Qed.

(** A repetition followed by a match of the rest matches, whatever else
    the repetition could have taken. *)
Lemma match_here_plus_some (k : cls) (p : pattern) (ws rest : text) :
  run_of k ws -> match_here p rest <> None ->
  match_here (Plus k :: p) (ws ++ rest) <> None.
Proof.
  intros [Hne Hws] Hp. simpl.
  apply backtrack_some with (k := List.length ws).
  - pose proof (length_nonempty Hne). pose proof (run_length_ge k ws rest Hws).
    lia.
  - now rewrite skipn_run.
Qed.

Lemma match_here_cap_some (k : cls) (p : pattern) (ws rest : text) :
  run_of k ws -> match_here p rest <> None ->
  match_here (Cap k :: p) (ws ++ rest) <> None.
Proof.
  intros [Hne Hws] Hp. simpl.
  apply backtrack_some with (k := List.length ws).
  - pose proof (length_nonempty Hne). pose proof (run_length_ge k ws rest Hws).
    lia.
  - rewrite skipn_run. destruct (match_here p rest); [discriminate|congruence].
Qed.

(** [search] is the match at the leftmost position that has one. *)
Lemma search_here (p : pattern) (s : text) (r : list text) :
  match_here p s = Some r -> search p s = Some r.
Proof. intros E. destruct s; simpl; now rewrite E. Qed.

Lemma search_skip (p : pattern) (pre s : text) :
  no_match_before p (List.length pre) (pre ++ s) ->
  search p (pre ++ s) = search p s.
Proof.
  induction pre as [|c pre IH]; intros H; [reflexivity|].
  assert (H0 : match_here p (c :: pre ++ s) = None)
    by (apply (H 0%nat); simpl; lia).
  cbn [app search]. rewrite H0.
  apply IH. intros j Hj. apply (H (S j)). simpl. lia.
Qed.

Lemma search_some (p : pattern) (pre s : text) :
  match_here p s <> None -> search p (pre ++ s) <> None.
Proof.
  intros H. induction pre as [|c pre IH]; simpl.
  - destruct (match_here p s) eqn:E; [|congruence].
    rewrite (search_here _ _ E). discriminate.
  - destruct (match_here p (c :: pre ++ s)); [discriminate|assumption].
Qed.

Lemma search_none (p : pattern) (s : text) :
  search p s = None ->
  forall j, (j <= List.length s)%nat -> match_here p (skipn j s) = None.
Proof.
  induction s as [|c s IH]; intros H j Hj.
  - simpl in *. destruct j; simpl; destruct (match_here p []); congruence.
  - simpl in H. destruct (match_here p (c :: s)) eqn:E; [discriminate|].
    destruct j as [|j]; [assumption|]. simpl. apply IH; [assumption|].
    simpl in Hj. lia.
Qed.

Lemma word_not_space (a : ascii) : is_word a = true -> is_space a = false.
Proof. each_char a; vm_compute; congruence. Qed.

Lemma stops_run (k1 k2 : cls) (w rest : text) :
  run_of k1 w ->
  (forall c, in_cls k1 c = true -> in_cls k2 c = false) ->
  stops k2 (w ++ rest).
Proof.
  intros [Hne Hw] Hk. destruct w as [|c w]; [congruence|].
  cbn [forallb] in Hw. apply andb_true_iff in Hw as [Hc _].
  cbn [app stops]. now apply Hk.
Qed.

Lemma stops_letter (s w rest : text) (c : ascii) :
  map lower w = map lower (c :: s) ->
  is_ascii_lower (lower c) = true ->
  stops Space (w ++ rest).
Proof.
  intros E Hc. destruct w as [|a w]; [discriminate|].
  cbn [map] in E. injection E as Ea _.
  cbn [app stops in_cls]. apply letter_not_space. now rewrite Ea.
Qed.

Lemma same_nocase_split (mid a b : text) :
  map lower mid = map lower (a ++ b) ->
  exists m1 m2,
    mid = m1 ++ m2 /\ map lower m1 = map lower a /\ map lower m2 = map lower b.
Proof.
  rewrite map_app. intros E. apply map_eq_app in E as (m1 & m2 & -> & E1 & E2).
  now exists m1, m2.
Qed.

Lemma run_of_digits_int (d : text) :
  run_of Digit d ->
  (Z.of_nat (List.length d) <= max_str_digits)%Z ->
  py_int d = Some (digits_value d).
Proof.
  intros [Hne Hd] Hlen. unfold py_int. destruct d; [congruence|].
  cbn [in_cls] in Hd. change (fun c => is_digit c) with is_digit in Hd.
  apply Z.leb_le in Hlen. now rewrite Hd, Hlen.
Qed.

Lemma long_digits_int (d : text) :
  (max_str_digits < Z.of_nat (List.length d))%Z -> py_int d = None.
Proof.
  intros Hlen. unfold py_int. destruct d; [reflexivity|].
  apply Z.leb_gt in Hlen. now rewrite Hlen, andb_false_r.
Qed.

(** The first pattern at an occurrence written with blanks only. *)
Lemma pat_address_here (w1 ws1 d1 ws2 w2 ws3 d2 post : text) :
  same_nocase w1 "subpanel" -> run_of Space ws1 -> run_of Digit d1 ->
  run_of Space ws2 -> same_nocase w2 "Address" -> run_of Space ws3 ->
  run_of Digit d2 -> stops Digit post ->
  match_here pat_address (w1 ++ ws1 ++ d1 ++ ws2 ++ w2 ++ ws3 ++ d2 ++ post)
  = Some [d1; d2].
Proof.
  intros Hw1 Hs1 Hd1 Hs2 Hw2 Hs3 Hd2 Hpost.
  unfold pat_address, lits. rewrite match_here_lits by exact Hw1.
  cbn [app].
  apply match_here_plus; [assumption|eapply stops_run; [exact Hd1|exact digit_not_space]|].
  apply match_here_cap; [assumption|eapply stops_run; [exact Hs2|exact space_not_digit]|].
  apply match_here_plus;
    [assumption|now eapply (@stops_letter (str "ddress")); [exact Hw2|]|].
  rewrite match_here_lits by exact Hw2.
  apply match_here_plus; [assumption|eapply stops_run; [exact Hd2|exact digit_not_space]|].
  apply match_here_cap; [assumption|assumption|reflexivity].
Qed.

Lemma pat_address_here_some (w1 ws1 d1 ws2 w2 ws3 d2 post : text) :
  same_nocase w1 "subpanel" -> run_of Space ws1 -> run_of Digit d1 ->
  run_of Space ws2 -> same_nocase w2 "Address" -> run_of Space ws3 ->
  run_of Digit d2 ->
  match_here pat_address (w1 ++ ws1 ++ d1 ++ ws2 ++ w2 ++ ws3 ++ d2 ++ post)
  <> None.
Proof.
  intros Hw1 Hs1 Hd1 Hs2 Hw2 Hs3 Hd2.
  unfold pat_address, lits. rewrite match_here_lits by exact Hw1.
  cbn [app].
  apply match_here_plus_some; [assumption|].
  apply match_here_cap_some; [assumption|].
  apply match_here_plus_some; [assumption|].
  rewrite match_here_lits by exact Hw2.
  apply match_here_plus_some; [assumption|].
  apply match_here_cap_some; [assumption|discriminate].
Qed.

(** The second pattern at an occurrence with a colon before the second
    integer. *)
Lemma pat_input_here (w1 d1 ws w2 d2 post : text) :
  same_nocase w1 "Subpanel:" -> run_of Digit d1 -> run_of Space ws ->
  run_of Word w2 -> run_of Digit d2 -> stops Digit post ->
  match_here pat_input (w1 ++ d1 ++ ws ++ w2 ++ str ":" ++ d2 ++ post)
  = Some [d1; d2].
Proof.
  intros Hw1 Hd1 Hs Hw2 Hd2 Hpost.
  unfold pat_input, lits. rewrite match_here_lits by exact Hw1.
  apply match_here_cap; [assumption|eapply stops_run; [exact Hs|exact space_not_digit]|].
  apply match_here_plus; [assumption|eapply stops_run; [exact Hw2|exact word_not_space]|].
  apply match_here_plus; [assumption|reflexivity|].
  change (str ":" ++ d2 ++ post) with (":"%char :: d2 ++ post).
  apply match_here_opt; [reflexivity|].
  now apply match_here_cap.
Qed.

Lemma extract_of_match (t : text) (m : list text) :
  find_match t = Some m ->
  extract t = mk_hw (py_int (group m 1)) (py_int (group m 2)) t.
Proof. intros E. unfold extract. now rewrite E. Qed.

Lemma nocase_letters_word (s w : text) :
  forallb is_ascii_lower (map lower s) = true ->
  map lower w = map lower s ->
  forallb is_word w = true.
Proof.
  revert w. induction s as [|c s IH]; intros [|a w] Hs E; try discriminate.
  - reflexivity.
  - cbn [map forallb] in *. apply andb_true_iff in Hs as [Hc Hs].
    injection E as Ea Ew. apply andb_true_iff. split.
    + apply letter_is_word. now rewrite Ea.
    + now apply IH.
Qed.

Lemma run_of_literal (k : cls) (s : string) :
  str s <> [] -> forallb (in_cls k) (str s) = true -> run_of k (str s).
Proof. now split. Qed.

(** Cutting a text that is a phrase in some casing at a point of the
    phrase. *)
Ltac split_nocase H a b E1 E2 :=
  let m1 := fresh "m" in
  let m2 := fresh "m" in
  lazymatch type of H with
  | map lower ?m = _ =>
      change (map lower m = map lower (a ++ b)) in H;
      apply same_nocase_split in H as (m1 & m2 & -> & E1 & E2)
  end.

(** C6, as the code has it: where the text holds, in any casing, the word
    "subpanel", blanks, an integer, blanks, the word "Address", blanks and
    an integer, with blanks only between the parts, the first pattern
    matches; the groups it captures are those of the leftmost position
    that has a match, each integer a whole run of digits; the extractor
    stores what [int] makes of the two runs, which is their value for
    runs of at most 4300 digits and nothing for longer ones. *)
Theorem address_pattern_blank_separated
    (pre w1 ws1 d1 ws2 w2 ws3 d2 post : text) :
  same_nocase w1 "subpanel" -> run_of Space ws1 -> run_of Digit d1 ->
  run_of Space ws2 -> same_nocase w2 "Address" -> run_of Space ws3 ->
  run_of Digit d2 ->
  let t := pre ++ w1 ++ ws1 ++ d1 ++ ws2 ++ w2 ++ ws3 ++ d2 ++ post in
  search pat_address t <> None
  /\ (no_match_before pat_address (List.length pre) t -> stops Digit post ->
      search pat_address t = Some [d1; d2]
      /\ extract t = mk_hw (py_int d1) (py_int d2) t
      /\ (forall d, d = d1 \/ d = d2 ->
            ((Z.of_nat (List.length d) <= max_str_digits)%Z ->
             py_int d = Some (digits_value d))
            /\ ((max_str_digits < Z.of_nat (List.length d))%Z ->
                py_int d = None))).
Proof.
  intros Hw1 Hs1 Hd1 Hs2 Hw2 Hs3 Hd2 t. split.
  - apply search_some. now apply pat_address_here_some.
  - intros Hpre Hpost.
    assert (Hs : search pat_address t = Some [d1; d2]).
    { unfold t. rewrite search_skip by exact Hpre.
      apply search_here. now apply pat_address_here. }
    split; [exact Hs|]. split.
    + unfold extract, find_match. now rewrite Hs.
    + intros d Hd. split; [|apply long_digits_int].
      destruct Hd as [->| ->]; now apply run_of_digits_int.
Qed.

Lemma address_pattern_blank_separated_witness :
  search pat_address (str "Reader on SubPanel  3 ADDRESS 12 (rear)")
  = Some [str "3"; str "12"].
Proof.
  apply (@address_pattern_blank_separated
           (str "Reader on ") (str "SubPanel") (str "  ") (str "3") (str " ")
           (str "ADDRESS") (str " ") (str "12") (str " (rear)"));
    try reflexivity; try (split; [discriminate|reflexivity]).
  intros j Hj.
  do 10 (destruct j as [|j]; [reflexivity|]).
  cbn in Hj. lia.
Defined.

(** C6, as the claim has it, fails: text between the first integer and
    the word "Address" keeps the first pattern from matching. *)
Lemma address_pattern_needs_blanks :
  loose_occurrence (str "subpanel 3 on Address 12")
  /\ search pat_address (str "subpanel 3 on Address 12") = None.
Proof.
  split; [|reflexivity].
  exists [], (str "subpanel"), (str " "), (str "3"), (str " on "),
    (str "Address"), (str " "), (str "12"), [].
  repeat split; discriminate.
Qed.

(** ** Field Extractor *)

Lemma search_address_phrase (pre mid post : text) :
  same_nocase mid "subpanel 3 Address 12" -> stops Digit post ->
  no_match_before pat_address (List.length pre) (pre ++ mid ++ post) ->
  search pat_address (pre ++ mid ++ post) = Some [str "3"; str "12"].
Proof.
  intros Hmid Hpost Hpre. rewrite search_skip by exact Hpre.
  apply search_here. unfold same_nocase in Hmid.
  split_nocase Hmid (str "subpanel") (str " 3 Address 12") Hw1 R1.
  split_nocase R1 (str " ") (str "3 Address 12") Hs1 R2.
  split_nocase R2 (str "3") (str " Address 12") Hd1 R3.
  split_nocase R3 (str " ") (str "Address 12") Hs2 R4.
  split_nocase R4 (str "Address") (str " 12") Hw2 R5.
  split_nocase R5 (str " ") (str "12") Hs3 Hd2.
  apply nocase_exact in Hs1, Hd1, Hs2, Hs3, Hd2; try reflexivity. subst.
  repeat rewrite <- app_assoc.
  apply pat_address_here; try assumption;
    try (split; [discriminate|reflexivity]).
Qed.

Lemma search_input_phrase (pre mid post : text) :
  same_nocase mid "Subpanel:2 Input:5" -> stops Digit post ->
  no_match_before pat_input (List.length pre) (pre ++ mid ++ post) ->
  search pat_input (pre ++ mid ++ post) = Some [str "2"; str "5"].
Proof.
  intros Hmid Hpost Hpre. rewrite search_skip by exact Hpre.
  apply search_here. unfold same_nocase in Hmid.
  split_nocase Hmid (str "Subpanel:") (str "2 Input:5") Hw1 R1.
  split_nocase R1 (str "2") (str " Input:5") Hd1 R2.
  split_nocase R2 (str " ") (str "Input:5") Hs R3.
  split_nocase R3 (str "Input") (str ":5") Hw2 R4.
  split_nocase R4 (str ":") (str "5") Hc Hd2.
  match type of Hw2 with
  | map lower ?w = _ =>
      assert (Hw : run_of Word w)
        by (split;
            [destruct w; discriminate
            |now apply (@nocase_letters_word (str "Input"))])
  end.
  apply nocase_exact in Hd1, Hs, Hc, Hd2; try reflexivity. subst.
  repeat rewrite <- app_assoc.
  apply pat_input_here; try assumption;
    try (split; [discriminate|reflexivity]).
Qed.

(** C1, as the code has it: a text that holds "subpanel 3 Address 12" in
    some casing gives (3, 12) when no digit follows the phrase and the
    first pattern has no match that starts before it; a text that holds
    "Subpanel:2 Input:5" in some casing gives (2, 5) when no digit
    follows the phrase, the first pattern matches nowhere and the second
    has no match that starts before it; a text neither pattern matches
    gives (None, None); the raw text is the text given, always. *)
Theorem extract_phrases :
  (forall pre mid post : text,
      same_nocase mid "subpanel 3 Address 12" -> stops Digit post ->
      no_match_before pat_address (List.length pre) (pre ++ mid ++ post) ->
      extract (pre ++ mid ++ post)
      = mk_hw (Some 3%Z) (Some 12%Z) (pre ++ mid ++ post))
  /\ (forall pre mid post : text,
      same_nocase mid "Subpanel:2 Input:5" -> stops Digit post ->
      search pat_address (pre ++ mid ++ post) = None ->
      no_match_before pat_input (List.length pre) (pre ++ mid ++ post) ->
      extract (pre ++ mid ++ post)
      = mk_hw (Some 2%Z) (Some 5%Z) (pre ++ mid ++ post))
  /\ (forall t : text,
      search pat_address t = None -> search pat_input t = None ->
      extract t = mk_hw None None t)
  /\ (forall t : text, raw (extract t) = t).
Proof.
  repeat split.
  - intros pre mid post Hmid Hpost Hpre.
    unfold extract, find_match.
    now rewrite (search_address_phrase _ _ Hmid Hpost Hpre).
  - intros pre mid post Hmid Hpost Hnone Hpre.
    unfold extract, find_match. rewrite Hnone.
    now rewrite (search_input_phrase _ _ Hmid Hpost Hpre).
  - intros t H1 H2. unfold extract, find_match. now rewrite H1, H2.
  - intros t. unfold extract. now destruct (find_match t).
Qed.

Lemma extract_phrases_witness :
  extract (str "Reader on SUBPANEL 3 address 12 (rear)")
  = mk_hw (Some 3%Z) (Some 12%Z) (str "Reader on SUBPANEL 3 address 12 (rear)")
  /\ extract (str "MR52 (subpanel:2 INPUT:5)")
     = mk_hw (Some 2%Z) (Some 5%Z) (str "MR52 (subpanel:2 INPUT:5)")
  /\ extract (str "Onboard reader port 1")
     = mk_hw None None (str "Onboard reader port 1").
Proof.
  destruct extract_phrases as (Ha & Hb & Hc & _).
  split; [|split].
  - apply (Ha (str "Reader on ") (str "SUBPANEL 3 address 12") (str " (rear)"));
      try reflexivity.
    intros j Hj. do 10 (destruct j as [|j]; [reflexivity|]). cbn in Hj. lia.
  - apply (Hb (str "MR52 (") (str "subpanel:2 INPUT:5") (str ")"));
      try reflexivity.
    intros j Hj. do 6 (destruct j as [|j]; [reflexivity|]). cbn in Hj. lia.
  - apply Hc; reflexivity.
Defined.

(** C1, as the claim has it, fails: the phrase can be followed by a
    further digit, which belongs to the address. *)
Lemma extract_phrase_followed_by_digit :
  contains_nocase "subpanel 3 Address 12" (str "subpanel 3 Address 123")
  /\ extract (str "subpanel 3 Address 123")
     = mk_hw (Some 3%Z) (Some 123%Z) (str "subpanel 3 Address 123")
  /\ (subpanel (extract (str "subpanel 3 Address 123")),
      address (extract (str "subpanel 3 Address 123")))
     <> (Some 3%Z, Some 12%Z).
Proof.
  split; [|split; [reflexivity|discriminate]].
  exists [], (str "subpanel 3 Address 12"), (str "3").
  split; reflexivity.
Qed.

(** ** Dictionaries *)

#[export] Instance text_KeyLaws : KeyLaws text.
Proof. exact text_eqb_eq. Qed.

#[export] Instance Z_KeyLaws : KeyLaws Z.
Proof. exact Z.eqb_eq. Qed.

Section DictFacts.
Context {K V : Type} `{KeyLaws K}.

Lemma keqb_refl (k : K) : keqb k k = true.
Proof. now apply keqb_eq. Qed.

Lemma keqb_neq (k k' : K) : k <> k' -> keqb k k' = false.
Proof.
  intros Hne. destruct (keqb k k') eqn:E; [|reflexivity].
  apply keqb_eq in E. contradiction.
Qed.

Lemma dict_get_set_same (k : K) (v : V) (d : dict K V) :
  dict_get k (dict_set k v d) = Some v.
Proof.
  induction d as [|[k' v'] d IH]; simpl.
  - now rewrite keqb_refl.
  - destruct (keqb k k') eqn:E; simpl; rewrite E; [reflexivity|exact IH].
Qed.

Lemma dict_get_set_other (k k' : K) (v : V) (d : dict K V) :
  k <> k' -> dict_get k' (dict_set k v d) = dict_get k' d.
Proof.
  intros Hne. induction d as [|[k0 v0] d IH]; simpl.
  - rewrite keqb_neq; [reflexivity|congruence].
  - destruct (keqb k k0) eqn:E; simpl; [|now rewrite IH].
    apply keqb_eq in E. subst k0.
    rewrite (keqb_neq (k := k') (k' := k)); [reflexivity|congruence].
Qed.

Lemma dict_get_In (k : K) (v : V) (d : dict K V) :
  dict_get k d = Some v -> In (k, v) d.
Proof.
  induction d as [|[k' v'] d IH]; simpl; [discriminate|].
  destruct (keqb k k') eqn:E.
  - apply keqb_eq in E. intros [= ->]. left. now subst.
  - intros Hd. right. now apply IH.
Qed.

Lemma dict_get_None (k : K) (d : dict K V) :
  dict_get k d = None -> ~ In k (keys d).
Proof.
  induction d as [|[k' v'] d IH]; simpl; [tauto|].
  destruct (keqb k k') eqn:E; [discriminate|].
  intros Hd [->|Hin]; [|now apply IH].
  rewrite keqb_refl in E. discriminate.
Qed.

Lemma In_dict_get (k : K) (v : V) (d : dict K V) :
  NoDup (keys d) -> In (k, v) d -> dict_get k d = Some v.
Proof.
  induction d as [|[k' v'] d IH]; simpl; [tauto|].
  intros Hnd [E|Hin].
  - injection E as -> ->. now rewrite keqb_refl.
  - inversion Hnd as [|? ? Hk Hd]; subst.
    destruct (keqb k k') eqn:E; [|now apply IH].
    apply keqb_eq in E. subst. exfalso. apply Hk.
    change k' with (fst (k', v)). now apply in_map.
Qed.

Lemma In_dict_set (k k' : K) (v v' : V) (d : dict K V) :
  In (k', v') (dict_set k v d) -> (k' = k /\ v' = v) \/ In (k', v') d.
Proof.
  induction d as [|[k0 v0] d IH]; simpl.
  - intros [[= <- <-]|[]]. now left.
  - destruct (keqb k k0) eqn:E; simpl.
    + apply keqb_eq in E. subst. intros [[= <- <-]|Hin]; [now left|tauto].
    + intros [E'|Hin]; [tauto|]. apply IH in Hin. tauto.
Qed.

Lemma keys_dict_set (k : K) (v : V) (d : dict K V) :
  keys (dict_set k v d)
  = match dict_get k d with
    | Some _ => keys d
    | None => keys d ++ [k]
    end.
Proof.
  unfold keys. induction d as [|[k0 v0] d IH]; simpl; [reflexivity|].
  destruct (keqb k k0) eqn:E; simpl; [reflexivity|].
  rewrite IH. now destruct (dict_get k d).
Qed.

Lemma NoDup_dict_set (k : K) (v : V) (d : dict K V) :
  NoDup (keys d) -> NoDup (keys (dict_set k v d)).
Proof.
  intros Hnd. rewrite keys_dict_set.
  destruct (dict_get k d) eqn:E; [assumption|].
  apply dict_get_None in E.
  apply NoDup_rev in Hnd. rewrite <- (rev_involutive (keys d ++ [k])).
  apply NoDup_rev. rewrite rev_app_distr. simpl. constructor; [|assumption].
  now rewrite <- in_rev.
Qed.

End DictFacts.

(** ** The structure of panels *)

Lemma key3_eqb_eq (a b : text * Z * text) : key3_eqb a b = true <-> a = b.
Proof.
  destruct a as [[p s] n], b as [[p' s'] n']. unfold key3_eqb.
  rewrite !andb_true_iff, !text_eqb_eq, Z.eqb_eq.
  split; [intros [[-> ->] ->]; reflexivity|intros [= -> -> ->]; tauto].
Qed.

Lemma get_or_empty_In {A B C : Type} `{KeyLaws A} (k : A) (d : dict A (dict B C))
    (x : B * C) :
  In x (get_or_empty k d) -> exists v, In (k, v) d /\ In x v.
Proof.
  unfold get_or_empty. destruct (dict_get k d) as [v|] eqn:E; [|intros []].
  intros Hx. exists v. split; [now apply dict_get_In|assumption].
Qed.

Lemma get_or_empty_NoDup {A B C : Type} `{KeyLaws A} (k : A)
    (d : dict A (dict B C)) (P : dict B C -> Prop) :
  P [] -> (forall v, In (k, v) d -> P v) -> P (get_or_empty k d).
Proof.
  intros Hnil Hd. unfold get_or_empty.
  destruct (dict_get k d) as [v|] eqn:E; [|assumption].
  now apply Hd, dict_get_In.
Qed.

Lemma lookup3_insert_door (ps : panels_t) (p p' : text) (s s' : Z)
    (n n' : text) (d : door) :
  lookup3 (insert_door p s n d ps) p' s' n'
  = if key3_eqb (p, s, n) (p', s', n') then Some d else lookup3 ps p' s' n'.
Proof.
  unfold lookup3, insert_door, key3_eqb, get_or_empty.
  unfold panels_t, panel_t, subpanel_t in *.
  destruct (text_eqb p p') eqn:Ep.
  - apply text_eqb_eq in Ep. subst p'. rewrite dict_get_set_same.
    destruct (Z.eqb s s') eqn:Es.
    + apply Z.eqb_eq in Es. subst s'. rewrite dict_get_set_same.
      destruct (text_eqb n n') eqn:En.
      * apply text_eqb_eq in En. subst n'. now rewrite dict_get_set_same.
      * assert (n <> n') by (intros ->; now rewrite text_eqb_refl in En).
        rewrite dict_get_set_other by assumption. cbn [andb].
        destruct (dict_get p ps) as [pd|]; [|reflexivity].
        now destruct (dict_get s pd).
    + assert (s <> s') by (intros ->; now rewrite Z.eqb_refl in Es).
      rewrite dict_get_set_other by assumption. cbn [andb].
      now destruct (dict_get p ps).
  - assert (p <> p') by (intros ->; now rewrite text_eqb_refl in Ep).
    now rewrite dict_get_set_other by assumption.
Qed.

Lemma wf_panels_nil : wf_panels [].
Proof. split; [constructor|intros p pd []]. Qed.

Lemma wf_insert_door (ps : panels_t) (p : text) (s : Z) (n : text) (d : door) :
  wf_panels ps -> wf_panels (insert_door p s n d ps).
Proof.
  intros [Hps Hin]. unfold insert_door.
  assert (Hpd : NoDup (keys (get_or_empty p ps))
                /\ forall s0 sd, In (s0, sd) (get_or_empty p ps) ->
                     NoDup (keys sd)).
  { apply get_or_empty_NoDup with (P := fun pd =>
      NoDup (keys pd) /\ forall s0 sd, In (s0, sd) pd -> NoDup (keys sd)).
    - split; [constructor|intros ? ? []].
    - intros v Hv. now apply (Hin p). }
  destruct Hpd as [Hpd Hsd].
  split; [now apply NoDup_dict_set|].
  intros p0 pd0 H0. apply In_dict_set in H0 as [[-> ->]|H0];
    [|now apply (Hin p0)].
  split; [now apply NoDup_dict_set|].
  intros s0 sd0 H1. apply In_dict_set in H1 as [[-> ->]|H1]; [|now apply (Hsd s0)].
  apply NoDup_dict_set.
  apply get_or_empty_NoDup with (P := fun sd => NoDup (keys sd));
    [constructor|]. intros v Hv. now apply (Hsd s).
Qed.

Lemma wf_insert_entry (ps : panels_t) (r : option entry) :
  wf_panels ps -> wf_panels (insert_entry ps r).
Proof.
  destruct r as [[[[p s] n] d]|]; [apply wf_insert_door|trivial].
Qed.

Lemma wf_fold_insert (rs : list (option entry)) (ps : panels_t) :
  wf_panels ps -> wf_panels (fold_left insert_entry rs ps).
Proof.
  revert ps. induction rs as [|r rs IH]; intros ps Hps; [assumption|].
  simpl. now apply IH, wf_insert_entry.
Qed.

Lemma In_entries_lookup3 (ps : panels_t) (p : text) (s : Z) (n : text)
    (d : door) :
  wf_panels ps ->
  (In (p, s, n, d) (entries ps) <-> lookup3 ps p s n = Some d).
Proof.
  intros [Hps Hin]. unfold entries, lookup3. split.
  - intros H. apply in_flat_map in H as ([p0 pd] & Hp0 & H).
    apply in_flat_map in H as ([s0 sd] & Hs0 & H).
    apply in_map_iff in H as ([n0 d0] & E & Hn0). cbn in E.
    injection E as -> -> -> ->.
    destruct (Hin _ _ Hp0) as [Hpd Hsd].
    rewrite (In_dict_get _ _ _ Hps Hp0), (In_dict_get _ _ _ Hpd Hs0).
    apply In_dict_get; [|assumption]. now apply (Hsd s).
  - destruct (dict_get p ps) as [pd|] eqn:Ep; [|discriminate].
    destruct (dict_get s pd) as [sd|] eqn:Es; [|discriminate].
    intros En. apply dict_get_In in Ep, Es, En.
    apply in_flat_map. exists (p, pd). split; [assumption|].
    apply in_flat_map. exists (s, sd). split; [assumption|].
    apply in_map_iff. now exists (n, d).
Qed.

Lemma NoDup_keyed_flat_map {A B C : Type} (g : A * B -> list C) (proj : C -> A)
    (d : list (A * B)) :
  NoDup (map fst d) ->
  (forall x, In x d -> NoDup (g x)) ->
  (forall x c, In x d -> In c (g x) -> proj c = fst x) ->
  NoDup (flat_map g d).
Proof.
  induction d as [|a d IH]; intros Hnd Hg Hproj; [constructor|].
  inversion Hnd as [|? ? Ha Hd]; subst. cbn [flat_map]. apply NoDup_app.
  - apply Hg. now left.
  - apply IH; [assumption| |]; intros; [apply Hg|apply Hproj]; simpl; auto.
  - intros c Hc Hc'. apply in_flat_map in Hc' as (x & Hx & Hcx).
    apply Ha. rewrite <- (Hproj a c), (Hproj x c); simpl; auto.
    now apply in_map.
Qed.

Lemma map_flat_map {A B C : Type} (f : B -> C) (g : A -> list B) (l : list A) :
  map f (flat_map g l) = flat_map (fun x => map f (g x)) l.
Proof.
  induction l as [|a l IH]; [reflexivity|].
  cbn [flat_map]. now rewrite map_app, IH.
Qed.

Lemma NoDup_entries (ps : panels_t) :
  wf_panels ps -> NoDup (map key3 (entries ps)).
Proof.
  intros [Hps Hin]. unfold entries. rewrite map_flat_map.
  apply NoDup_keyed_flat_map with (proj := fun k => fst (fst k)).
  - exact Hps.
  - intros [p pd] Hp. destruct (Hin _ _ Hp) as [Hpd Hsd]. cbn [fst snd].
    rewrite map_flat_map.
    apply NoDup_keyed_flat_map with (proj := fun k => snd (fst k)).
    + exact Hpd.
    + intros [s sd] Hs. cbn [fst snd]. rewrite map_map. cbn [key3].
      specialize (Hsd _ _ Hs). unfold keys in Hsd.
      rewrite <- (map_map fst (fun n => (p, s, n))).
      apply NoDup_map_NoDup_ForallPairs; [|assumption].
      intros x y _ _ E. congruence.
    + intros [s sd] c _ Hc. cbn [fst snd] in *.
      apply in_map_iff in Hc as (e & <- & He).
      apply in_map_iff in He as (nd & <- & _). reflexivity.
  - intros [p pd] c _ Hc. cbn [fst snd] in *.
    apply in_map_iff in Hc as (e & <- & He).
    apply in_flat_map in He as (ssd & _ & He).
    apply in_map_iff in He as (nd & <- & _). reflexivity.
Qed.

Lemma lookup3_fold_insert (rs : list (option entry)) (ps : panels_t)
    (p : text) (s : Z) (n : text) :
  lookup3 (fold_left insert_entry rs ps) p s n
  = fold_left
      (fun acc r =>
         match r with
         | Some (p0, s0, n0, d) =>
             if key3_eqb (p0, s0, n0) (p, s, n) then Some d else acc
         | None => acc
         end)
      rs (lookup3 ps p s n).
Proof.
  revert ps. induction rs as [|r rs IH]; intros ps; [reflexivity|].
  cbn [fold_left]. rewrite IH. f_equal.
  destruct r as [[[[p0 s0] n0] d]|]; [|reflexivity].
  apply lookup3_insert_door.
Qed.

(** ** The loop over the sections *)

Lemma in_indices_where (f : row -> bool) (df : list row) (i j : nat) :
  In j (indices_where f df i) -> (i <= j < i + List.length df)%nat.
Proof.
  revert i. induction df as [|r df IH]; intros i; simpl; [tauto|].
  destruct (f r); simpl; [intros [<-|Hj]|intros Hj];
    try lia; apply IH in Hj; lia.
Qed.

Lemma in_combine_tl {A : Type} (a : list A) (x s e : A) :
  In (s, e) (combine (a ++ [x]) (tl (a ++ [x]))) -> In s a.
Proof.
  induction a as [|y a IH]; [intros []|].
  destruct a as [|z a]; cbn [app tl combine] in *.
  - intros [[= <- _]|[]]. now left.
  - intros [[= <- _]|Hin]; [now left|]. right. now apply IH.
Qed.

Lemma in_sections_start (df : DataFrame) (s e : nat) :
  In (s, e) (sections df) -> (s < List.length df)%nat.
Proof.
  intros H. apply in_combine_tl, in_indices_where in H. lia.
Qed.

Lemma header_index_nat (start_cfg : nat) :
  (Z.of_nat start_cfg - 1 <? 0)%Z = false ->
  Z.to_nat (Z.of_nat start_cfg - 1) = (start_cfg - 1)%nat
  /\ start_cfg <> 0%nat.
Proof. intros H. apply Z.ltb_ge in H. lia. Qed.

(** Inside the table the row above a section can be read. *)
Lemma loc_Name_ok (df : DataFrame) (i : nat) :
  (i < List.length df)%nat -> exists c, loc_Name df i = Ok c.
Proof.
  intros Hi. unfold loc_Name.
  destruct (nth_error df i) as [r|] eqn:E; [now exists (Name r)|].
  apply nth_error_None in E. lia.
Qed.

Lemma section_result_total (df : DataFrame) (se : nat * nat) :
  In se (sections df) -> section_result df se = Ok (outcome df se).
Proof.
  destruct se as [s e]. intros Hin. apply in_sections_start in Hin.
  unfold outcome.
  destruct (section_result df (s, e)) as [r|x] eqn:E; [reflexivity|].
  exfalso. unfold section_result in E.
  destruct (Z.of_nat s - 1 <? 0)%Z eqn:Hh; [discriminate|].
  apply header_index_nat in Hh as [Hh _]. rewrite Hh in E.
  destruct (loc_Name_ok df (i := s - 1)) as [c Hc]; [lia|].
  rewrite Hc in E. cbn [bind] in E.
  destruct (filter (name_is "Panel") (block_of df (s - 1) e));
    [discriminate|].
  now destruct (resolve priority _).
Qed.

Lemma parse_loop_ok (df : DataFrame) (l : list (nat * nat)) (ps : panels_t) :
  (forall se, In se l -> section_result df se = Ok (outcome df se)) ->
  parse_loop df l (Ok ps)
  = Ok (fold_left insert_entry (map (outcome df) l) ps).
Proof.
  revert ps. induction l as [|se l IH]; intros ps Hl; [reflexivity|].
  unfold parse_loop in *. cbn [fold_left map bind].
  unfold process_section at 2. rewrite (Hl se) by now left.
  cbn [bind]. apply IH. intros se' Hse'. apply Hl. now right.
Qed.

(** The parser returns, and what it returns is the fold of the sections'
    contributions. *)
Lemma parse_door_config_ok (df : DataFrame) :
  parse_door_config df
  = Ok (fold_left insert_entry (map (outcome df) (sections df)) []).
Proof.
  apply parse_loop_ok. intros se. apply section_result_total.
Qed.

Lemma parse_loop_raise (df : DataFrame) (l : list (nat * nat)) (e : exn) :
  parse_loop df l (Raise e) = Raise e.
Proof. induction l as [|se l IH]; [reflexivity|exact IH]. Qed.

Lemma parse_loop_app (df : DataFrame) (a b : list (nat * nat))
    (acc : result panels_t) :
  parse_loop df (a ++ b) acc = parse_loop df b (parse_loop df a acc).
Proof. apply fold_left_app. Qed.

Lemma parse_loop_cons (df : DataFrame) (se : nat * nat) (l : list (nat * nat))
    (acc : result panels_t) :
  parse_loop df (se :: l) acc
  = parse_loop df l (bind acc (fun ps => process_section df ps se)).
Proof. reflexivity. Qed.

Lemma malformed_result (df : DataFrame) (se : nat * nat) :
  In se (sections df) -> malformed df se -> section_result df se = Ok None.
Proof.
  destruct se as [s e]. intros Hin Hbad. apply in_sections_start in Hin.
  unfold section_result.
  destruct (Z.of_nat s - 1 <? 0)%Z eqn:Hh; [reflexivity|].
  apply header_index_nat in Hh as [Hh Hs]. rewrite Hh.
  destruct (loc_Name_ok df (i := s - 1)) as [c Hc]; [lia|].
  rewrite Hc. cbn [bind].
  destruct Hbad as [H0|Hnone]; cbn [fst snd] in *; [contradiction|].
  now rewrite Hnone.
Qed.

Example sample_sections :
  sections sample_table
  = [(0, 3); (3, 7); (7, 13); (13, 18); (18, 22)]%nat.
Proof. reflexivity. Qed.

Example sample_third_section :
  section_result sample_table (7, 13)%nat
  = Ok (Some (str "Gym", 1%Z, str "Door C", sample_door_C)).
Proof. reflexivity. Qed.

Example sample_entries :
  exists ps,
    parse_door_config sample_table = Ok ps
    /\ map (fun e => (key3 e, door_index (snd e))) (entries ps)
       = [((str "Gym", 1%Z, str "Door C"), 9%Z);
          ((str "Gym", 1%Z, str "Door D"), 3%Z)].
Proof. eexists. split; reflexivity. Qed.

(** C7: a section that starts at row 0, or that has no "Panel" row, adds
    nothing and raises nothing; the loop goes on with the sections after
    it, so the parse is the parse of the other sections, and it returns
    a structure. *)
Theorem malformed_section_skipped (df : DataFrame) (l1 l2 : list (nat * nat))
    (se : nat * nat) :
  sections df = l1 ++ se :: l2 -> malformed df se ->
  section_result df se = Ok None
  /\ (forall ps, process_section df ps se = Ok ps)
  /\ parse_door_config df = parse_loop df (l1 ++ l2) (Ok [])
  /\ exists ps, parse_door_config df = Ok ps.
Proof.
  intros Hsec Hbad.
  assert (Hres : section_result df se = Ok None).
  { apply malformed_result; [|assumption].
    rewrite Hsec. apply in_or_app. right. now left. }
  assert (Hstep : forall ps, process_section df ps se = Ok ps).
  { intros ps. unfold process_section. now rewrite Hres. }
  repeat split; try assumption.
  - unfold parse_door_config. rewrite Hsec, !parse_loop_app, parse_loop_cons.
    f_equal.
    destruct (parse_loop df l1 (Ok [])) as [ps|e]; [apply Hstep|reflexivity].
  - eexists. apply parse_door_config_ok.
Qed.

Lemma malformed_section_skipped_witness :
  parse_door_config sample_table
  = parse_loop sample_table [(3, 7); (7, 13); (13, 18); (18, 22)]%nat (Ok [])
  /\ parse_door_config sample_table
     = parse_loop sample_table [(0, 3); (7, 13); (13, 18); (18, 22)]%nat (Ok []).
Proof.
  split.
  - apply (@malformed_section_skipped sample_table [] _ (0, 3)%nat);
      [reflexivity|left; reflexivity].
  - apply (@malformed_section_skipped sample_table [(0, 3)%nat] _ (3, 7)%nat);
      [reflexivity|right; reflexivity].
Defined.

(** What a section that contributes a door has read. *)
Lemma section_result_inv (df : DataFrame) (start_cfg end_cfg : nat)
    (p : text) (s : Z) (n : text) (d : door) :
  section_result df (start_cfg, end_cfg) = Ok (Some (p, s, n, d)) ->
  let block := block_of df (start_cfg - 1) end_cfg in
  start_cfg <> 0%nat
  /\ (exists c, loc_Name df (start_cfg - 1) = Ok c /\ n = py_str c)
  /\ (exists panel_row rest,
        filter (name_is "Panel") block = panel_row :: rest
        /\ p = strip (py_str (Value panel_row)))
  /\ hardware d = hardware_of_block block
  /\ (s, door_index d) = resolve priority (hardware d).
Proof.
  unfold section_result.
  destruct (Z.of_nat start_cfg - 1 <? 0)%Z eqn:Hh; [discriminate|].
  apply header_index_nat in Hh as [Hh Hs]. rewrite Hh.
  destruct (loc_Name df (start_cfg - 1)) as [c|e] eqn:Hc; [|discriminate].
  cbn [bind].
  destruct (filter (name_is "Panel") (block_of df (start_cfg - 1) end_cfg))
    as [|panel_row rest] eqn:Hp; [discriminate|].
  destruct (resolve priority _) as [sp di] eqn:Hr.
  intros [= <- <- <- <-]. cbn [hardware door_index].
  repeat split; try assumption; eauto.
Qed.

(** ** Subpanel and door index *)

Lemma resolve_first (hw : dict text hw_info) (pre post : list text) (k : text)
    (info : hw_info) (sp : Z) :
  Forall (no_subpanel hw) pre ->
  dict_get k hw = Some info -> subpanel info = Some sp ->
  resolve (pre ++ k :: post) hw = (sp, or_minus_one (address info)).
Proof.
  intros Hpre Hk Hsp. induction Hpre as [|k0 pre H0 _ IH]; cbn [app resolve].
  - now rewrite Hk, Hsp.
  - unfold no_subpanel in H0. destruct (dict_get k0 hw) as [i0|]; [|exact IH].
    now rewrite H0.
Qed.

Lemma resolve_none (hw : dict text hw_info) (ks : list text) :
  Forall (no_subpanel hw) ks -> resolve ks hw = ((-1)%Z, (-1)%Z).
Proof.
  intros Hks. induction Hks as [|k0 ks H0 _ IH]; [reflexivity|].
  cbn [resolve]. unfold no_subpanel in H0.
  destruct (dict_get k0 hw) as [i0|]; [|exact IH]. now rewrite H0.
Qed.

(** C2: the subpanel and the index of a parsed door come from the first
    of Reader, Door Position, Strike, Rex #1, Rex #2 that has a subpanel;
    the index is that field's address, or -1 without one; with no such
    field, both are -1. *)
Theorem door_bucket_by_priority (df : DataFrame) (se : nat * nat)
    (p : text) (s : Z) (n : text) (d : door) :
  section_result df se = Ok (Some (p, s, n, d)) ->
  priority
  = [str "Reader"; str "Door Position"; str "Strike"; str "Rex #1";
     str "Rex #2"]
  /\ (forall pre k post info sp,
        priority = pre ++ k :: post ->
        Forall (no_subpanel (hardware d)) pre ->
        dict_get k (hardware d) = Some info -> subpanel info = Some sp ->
        s = sp /\ door_index d = or_minus_one (address info))
  /\ (Forall (no_subpanel (hardware d)) priority ->
      s = (-1)%Z /\ door_index d = (-1)%Z).
Proof.
  destruct se as [start_cfg end_cfg]. intros H.
  apply section_result_inv in H as (_ & _ & _ & _ & Hr).
  split; [reflexivity|]. split.
  - intros pre k post info sp Hsplit Hpre Hk Hsp.
    rewrite Hsplit, (resolve_first _ _ Hpre Hk Hsp) in Hr.
    now injection Hr.
  - intros Hall. rewrite (resolve_none Hall) in Hr. now injection Hr.
Qed.

Lemma door_bucket_by_priority_witness :
  (1 = 1 /\ door_index sample_door_C = or_minus_one (Some 2))%Z.
Proof.
  destruct (@door_bucket_by_priority sample_table (7, 13)%nat (str "Gym") 1%Z
              (str "Door C") sample_door_C eq_refl) as (_ & Hfirst & _).
  apply (Hfirst [str "Reader"; str "Door Position"] (str "Strike")
           [str "Rex #1"; str "Rex #2"]
           (mk_hw (Some 1%Z) (Some 2%Z) (str "Relay (Subpanel:1 Output:2)")));
    try reflexivity.
  repeat constructor.
Defined.

(** ** Buckets *)

(** A section with a row above it and a "Panel" row contributes its
    door. *)
Lemma section_contributes (df : DataFrame) (se : nat * nat)
    (panel_row : row) (rest : list row) :
  In se (sections df) -> fst se <> 0%nat ->
  filter (name_is "Panel") (block_of df (fst se - 1) (snd se))
  = panel_row :: rest ->
  exists name_row,
    nth_error df (fst se - 1) = Some name_row
    /\ let hw := hardware_of_block (block_of df (fst se - 1) (snd se)) in
       outcome df se
       = Some (strip (py_str (Value panel_row)), fst (resolve priority hw),
               py_str (Name name_row),
               mk_door (snd (resolve priority hw)) hw).
Proof.
  destruct se as [s e]. cbn [fst snd]. intros Hin Hs Hp.
  apply in_sections_start in Hin.
  destruct (nth_error df (s - 1)) as [name_row|] eqn:En;
    [|apply nth_error_None in En; lia].
  exists name_row. split; [reflexivity|]. cbn zeta.
  unfold outcome, section_result.
  destruct (Z.of_nat s - 1 <? 0)%Z eqn:Hh; [apply Z.ltb_lt in Hh; lia|].
  apply header_index_nat in Hh as [Hh _]. rewrite Hh.
  unfold loc_Name. rewrite En. cbn [bind]. rewrite Hp.
  now destruct (resolve priority _).
Qed.

(** A door once written under a key stays until a later one is written
    under the same key. *)
Lemma last_write_from (k : text * Z * text) (rs : list (option entry))
    (d0 : door) :
  exists d',
    fold_left
      (fun acc r =>
         match r with
         | Some (p, s, n, d) => if key3_eqb (p, s, n) k then Some d else acc
         | None => acc
         end)
      rs (Some d0) = Some d'
    /\ ((forall e, In (Some e) rs -> key3 e <> k) -> d' = d0).
Proof.
  revert d0. induction rs as [|r rs IH]; intros d0;
    [exists d0; now split|].
  cbn [fold_left]. destruct r as [[[[p s] n] d]|].
  - destruct (key3_eqb (p, s, n) k) eqn:E.
    + destruct (IH d) as (d' & Hd' & _). exists d'. split; [exact Hd'|].
      intros Hno. exfalso. apply key3_eqb_eq in E.
      apply (Hno (p, s, n, d)); [now left|exact E].
    + destruct (IH d0) as (d' & Hd' & Hkeep). exists d'.
      split; [exact Hd'|]. intros Hno. apply Hkeep.
      intros e He. apply Hno. now right.
  - destruct (IH d0) as (d' & Hd' & Hkeep). exists d'.
    split; [exact Hd'|]. intros Hno. apply Hkeep.
    intros e He. apply Hno. now right.
Qed.

Lemma last_write_after (p : text) (s : Z) (n : text) (d : door)
    (l1 l2 : list (option entry)) :
  exists d',
    last_write (p, s, n) (l1 ++ Some (p, s, n, d) :: l2) = Some d'
    /\ ((forall e, In (Some e) l2 -> key3 e <> (p, s, n)) -> d' = d).
Proof.
  unfold last_write. rewrite fold_left_app. cbn [fold_left].
  assert (E : key3_eqb (p, s, n) (p, s, n) = true) by now apply key3_eqb_eq.
  rewrite E. apply last_write_from.
Qed.

(** C5: the parse returns a structure in which every key (panel,
    subpanel, door name) stands once, and the door under a key is the one
    the last section with that key contributed.  A section with a row
    above it and with a "Panel" row contributes the door of its name, with
    the hardware of its block, to the bucket of its stripped panel name
    and its resolved subpanel; a section without a "Panel" row contributes
    nothing.  The key of every contribution is in the structure, and the
    contributed door itself is there unless a later section contributes
    under the same key: a later door of the same name in the same bucket
    takes its place. *)
Theorem parse_buckets (df : DataFrame) :
  exists ps,
    parse_door_config df = Ok ps
    /\ NoDup (map key3 (entries ps))
    /\ (forall p s n d,
          In (p, s, n, d) (entries ps)
          <-> last_write (p, s, n) (map (outcome df) (sections df)) = Some d)
    /\ (forall se,
          In se (sections df) ->
          filter (name_is "Panel") (block_of df (fst se - 1) (snd se)) = [] ->
          outcome df se = None)
    /\ (forall se panel_row rest,
          In se (sections df) -> fst se <> 0%nat ->
          filter (name_is "Panel") (block_of df (fst se - 1) (snd se))
          = panel_row :: rest ->
          exists name_row,
            nth_error df (fst se - 1) = Some name_row
            /\ let hw :=
                 hardware_of_block (block_of df (fst se - 1) (snd se)) in
               outcome df se
               = Some (strip (py_str (Value panel_row)),
                       fst (resolve priority hw),
                       py_str (Name name_row),
                       mk_door (snd (resolve priority hw)) hw))
    /\ (forall se e,
          In se (sections df) -> outcome df se = Some e ->
          In (key3 e) (map key3 (entries ps)))
    /\ (forall l1 se l2 p s n d,
          sections df = l1 ++ se :: l2 ->
          outcome df se = Some (p, s, n, d) ->
          (forall se' e',
             In se' l2 -> outcome df se' = Some e' -> key3 e' <> (p, s, n)) ->
          In (p, s, n, d) (entries ps)).
Proof.
  eexists. split; [apply parse_door_config_ok|].
  assert (Hwf : wf_panels
                  (fold_left insert_entry (map (outcome df) (sections df)) []))
    by apply wf_fold_insert, wf_panels_nil.
  assert (Hlast : forall p s n d,
             In (p, s, n, d)
               (entries
                  (fold_left insert_entry (map (outcome df) (sections df)) []))
             <-> last_write (p, s, n) (map (outcome df) (sections df))
                 = Some d).
  { intros p s n d. rewrite (In_entries_lookup3 _ _ _ _ Hwf).
    now rewrite lookup3_fold_insert. }
  split; [now apply NoDup_entries|]. split; [exact Hlast|].
  split; [|split; [|split]].
  - intros se Hin Hnone. unfold outcome.
    rewrite (@malformed_result df se Hin); [reflexivity|now right].
  - intros se panel_row rest. apply section_contributes.
  - intros se [[[p s] n] d] Hin Ho. apply in_split in Hin as (l1 & l2 & Hs).
    destruct (last_write_after p s n d (map (outcome df) l1)
                (map (outcome df) l2)) as (d' & Hd' & _).
    apply in_map_iff. exists (p, s, n, d'). split; [reflexivity|].
    apply Hlast. now rewrite Hs, map_app, map_cons, Ho.
  - intros l1 se l2 p s n d Hs Ho Hlater.
    destruct (last_write_after p s n d (map (outcome df) l1)
                (map (outcome df) l2)) as (d' & Hd' & Hkeep).
    assert (E : d' = d).
    { apply Hkeep. intros e He. apply in_map_iff in He as (se' & Ho' & Hin').
      now apply (Hlater se'). }
    subst d'. apply Hlast. rewrite Hs, map_app, map_cons, Ho. exact Hd'.
Qed.

Lemma parse_buckets_witness :
  exists ps,
    parse_door_config sample_table = Ok ps
    /\ outcome sample_table (13, 18)%nat
       = Some (str "Gym", 1%Z, str "Door D", sample_door_D)
    /\ In (str "Gym", 1%Z, str "Door D", sample_door_D) (entries ps)
    /\ In (str "Gym", 1%Z, str "Door C") (map key3 (entries ps)).
Proof.
  destruct (parse_buckets sample_table)
    as (ps & Hps & _ & _ & _ & Hgives & Hkey & Hkeeps).
  exists ps. split; [exact Hps|].
  assert (Ho : outcome sample_table (13, 18)%nat
               = Some (str "Gym", 1%Z, str "Door D", sample_door_D)).
  { destruct (Hgives (13, 18)%nat (data_row "Panel" "Gym") [])
      as (name_row & Hn & Ho).
    - vm_compute. tauto.
    - discriminate.
    - reflexivity.
    - injection Hn as <-. exact Ho. }
  split; [exact Ho|]. split.
  - apply (Hkeeps [(0, 3); (3, 7); (7, 13)]%nat (13, 18)%nat [(18, 22)%nat]);
      [reflexivity|exact Ho|].
    intros se' e' [<-|[]] He'. vm_compute in He'. injection He' as <-.
    discriminate.
  - apply (Hkey (7, 13)%nat (str "Gym", 1%Z, str "Door C", sample_door_C));
      [vm_compute; tauto|reflexivity].
Defined.

(** ** Panel names *)

Lemma lstrip_blank (w : text) : blank w -> lstrip w = [].
Proof.
  unfold blank. induction w as [|c w IH]; [reflexivity|].
  cbn [forallb lstrip]. intros H. apply andb_true_iff in H as [Hc Hw].
  rewrite Hc. now apply IH.
Qed.

Lemma lstrip_app_blank (l s : text) : blank l -> lstrip (l ++ s) = lstrip s.
Proof.
  unfold blank. induction l as [|c l IH]; [reflexivity|].
  cbn [forallb app lstrip]. intros H. apply andb_true_iff in H as [Hc Hl].
  rewrite Hc. now apply IH.
Qed.

Lemma lstrip_app_cases (a b : text) :
  (lstrip a = [] /\ lstrip (a ++ b) = lstrip b)
  \/ (lstrip a <> [] /\ lstrip (a ++ b) = lstrip a ++ b).
Proof.
  induction a as [|c a IH]; [now left|].
  cbn [app lstrip]. destruct (is_space c); [exact IH|].
  right. split; [discriminate|reflexivity].
Qed.

Lemma blank_rev (w : text) : blank w -> blank (rev w).
Proof.
  unfold blank. rewrite !forallb_forall. intros H c Hc.
  apply H. now apply in_rev.
Qed.

Lemma rstrip_app_blank (s r : text) : blank r -> rstrip (s ++ r) = rstrip s.
Proof.
  intros Hr. unfold rstrip. rewrite rev_app_distr.
  now rewrite lstrip_app_blank by now apply blank_rev.
Qed.

Lemma strip_surrounding (l core r : text) :
  blank l -> blank r -> strip (l ++ core ++ r) = strip core.
Proof.
  intros Hl Hr. unfold strip. rewrite lstrip_app_blank by assumption.
  destruct (lstrip_app_cases core r) as [[E1 E2]|[E1 E2]]; rewrite E2.
  - now rewrite E1, (lstrip_blank Hr).
  - now apply rstrip_app_blank.
Qed.

Lemma lstrip_idem (s : text) : lstrip (lstrip s) = lstrip s.
Proof.
  induction s as [|c s IH]; [reflexivity|].
  cbn [lstrip]. destruct (is_space c) eqn:E; [exact IH|].
  cbn [lstrip]. now rewrite E.
Qed.

Lemma lstrip_split (s : text) : exists l, blank l /\ s = l ++ lstrip s.
Proof.
  induction s as [|c s (l & Hl & IH)]; [now exists []|].
  cbn [lstrip]. destruct (is_space c) eqn:E; [|now exists []].
  exists (c :: l). split; [|cbn [app]; now f_equal].
  unfold blank in *. cbn [forallb]. now rewrite E, Hl.
Qed.

Lemma lstrip_head (s : text) (c : ascii) (w : text) :
  lstrip s = c :: w -> is_space c = false.
Proof.
  induction s as [|a s IH]; [discriminate|].
  cbn [lstrip]. destruct (is_space a) eqn:E; [exact IH|].
  now intros [= <- _].
Qed.

Lemma lstrip_fixed (s : text) :
  match s with c :: _ => is_space c = false | [] => True end ->
  lstrip s = s.
Proof. destruct s as [|c s]; [reflexivity|]. cbn [lstrip]. now intros ->. Qed.

Lemma rstrip_split (s : text) : exists r, blank r /\ s = rstrip s ++ r.
Proof.
  destruct (lstrip_split (rev s)) as (l & Hl & E).
  exists (rev l). split; [now apply blank_rev|].
  unfold rstrip. rewrite <- rev_app_distr, <- E. now rewrite rev_involutive.
Qed.

Lemma rstrip_idem (s : text) : rstrip (rstrip s) = rstrip s.
Proof. unfold rstrip. now rewrite rev_involutive, lstrip_idem. Qed.

(** Taking the blanks off the end leaves the start as it was. *)
Lemma lstrip_rstrip_fixed (s : text) :
  lstrip s = s -> lstrip (rstrip s) = rstrip s.
Proof.
  intros Hs. destruct (rstrip_split s) as (r & _ & E).
  apply lstrip_fixed. destruct (rstrip s) as [|c w]; [exact I|].
  rewrite E in Hs. cbn [app] in Hs. now apply lstrip_head in Hs.
Qed.

Lemma strip_idem (s : text) : strip (strip s) = strip s.
Proof.
  unfold strip.
  rewrite (@lstrip_rstrip_fixed (lstrip s)) by apply lstrip_idem.
  apply rstrip_idem.
Qed.

Lemma strip_ends (s : text) :
  match strip s with c :: _ => is_space c = false | [] => True end
  /\ match rev (strip s) with c :: _ => is_space c = false | [] => True end.
Proof.
  split.
  - pose proof (@lstrip_rstrip_fixed (lstrip s) (lstrip_idem s)) as H.
    fold (strip s) in H. destruct (strip s) as [|c w] eqn:E; [exact I|].
    now apply lstrip_head in H.
  - unfold strip, rstrip. rewrite rev_involutive.
    destruct (lstrip (rev (lstrip s))) as [|c w] eqn:E; [exact I|].
    now apply lstrip_head in E.
Qed.

Lemma strip_split (v : text) :
  exists l r, v = l ++ strip v ++ r /\ blank l /\ blank r.
Proof.
  destruct (lstrip_split v) as (l & Hl & El).
  destruct (rstrip_split (lstrip v)) as (r & Hr & Er).
  exists l, r. split; [|now split].
  unfold strip. now rewrite <- Er.
Qed.

Lemma strip_fixed (s : text) :
  match s with c :: _ => is_space c = false | [] => True end ->
  match rev s with c :: _ => is_space c = false | [] => True end ->
  strip s = s.
Proof.
  intros Hhead Hlast. unfold strip, rstrip.
  rewrite (lstrip_fixed _ Hhead), (lstrip_fixed _ Hlast).
  apply rev_involutive.
Qed.

(** C10: a section is filed under the value of its first "Panel" row
    with the blanks at both ends taken off: the value is the key with
    blanks before and after it, and the key has no blank at either end;
    taking the blanks off gives the one text of which this holds.  So two
    sections whose values differ in those blanks only go under one
    panel. *)
Theorem panel_key_stripped :
  (forall df se p s n d,
      section_result df se = Ok (Some (p, s, n, d)) ->
      exists panel_row rest l r,
        filter (name_is "Panel") (block_of df (fst se - 1) (snd se))
        = panel_row :: rest
        /\ p = strip (py_str (Value panel_row))
        /\ py_str (Value panel_row) = l ++ p ++ r
        /\ blank l /\ blank r
        /\ match p with c :: _ => is_space c = false | [] => True end
        /\ match rev p with c :: _ => is_space c = false | [] => True end)
  /\ (forall v l core r,
        v = l ++ core ++ r -> blank l -> blank r ->
        match core with c :: _ => is_space c = false | [] => True end ->
        match rev core with c :: _ => is_space c = false | [] => True end ->
        strip v = core)
  /\ (forall ps p s n d,
        lookup3 (insert_door p s n d ps) p s n = Some d)
  /\ (forall l r l' r' core,
        blank l -> blank r -> blank l' -> blank r' ->
        strip (l ++ core ++ r) = strip (l' ++ core ++ r'))
  /\ (forall df se se' p p' s s' n n' d d' v v' rest rest' l r l' r' core,
        section_result df se = Ok (Some (p, s, n, d)) ->
        section_result df se' = Ok (Some (p', s', n', d')) ->
        filter (name_is "Panel") (block_of df (fst se - 1) (snd se))
        = mk_row (Val (str "Panel")) (Val v) :: rest ->
        filter (name_is "Panel") (block_of df (fst se' - 1) (snd se'))
        = mk_row (Val (str "Panel")) (Val v') :: rest' ->
        v = l ++ core ++ r -> v' = l' ++ core ++ r' ->
        blank l -> blank r -> blank l' -> blank r' ->
        p = p').
Proof.
  split; [|split; [|split; [|split]]].
  - intros df [start_cfg end_cfg] p s n d H.
    apply section_result_inv in H as (_ & _ & (prow & rest & Hf & ->) & _).
    destruct (strip_split (py_str (Value prow))) as (l & r & Hv & Hl & Hr).
    exists prow, rest, l, r. split; [exact Hf|]. split; [reflexivity|].
    split; [exact Hv|]. split; [exact Hl|]. split; [exact Hr|].
    apply strip_ends.
  - intros v l core r -> Hl Hr Hhead Hlast.
    rewrite strip_surrounding by assumption. now apply strip_fixed.
  - intros ps p s n d. rewrite lookup3_insert_door.
    assert (E : key3_eqb (p, s, n) (p, s, n) = true) by now apply key3_eqb_eq.
    now rewrite E.
  - intros l r l' r' core Hl Hr Hl' Hr'.
    now rewrite !strip_surrounding.
  - intros df [a b] [a' b'] p p' s s' n n' d d' v v' rest rest' l r l' r' core
      H H' Hv Hv' -> -> Hl Hr Hl' Hr'.
    apply section_result_inv in H as (_ & _ & (x & y & Hx & ->) & _).
    apply section_result_inv in H' as (_ & _ & (x' & y' & Hx' & ->) & _).
    cbn [fst snd] in *. rewrite Hv in Hx. rewrite Hv' in Hx'.
    injection Hx as <- _. injection Hx' as <- _. cbn [Value py_str].
    now rewrite !strip_surrounding.
Qed.

Lemma panel_key_stripped_witness :
  (exists panel_row rest l r,
      filter (name_is "Panel") (block_of sample_table (7 - 1) 13)
      = panel_row :: rest
      /\ str "Gym" = strip (py_str (Value panel_row))
      /\ py_str (Value panel_row) = l ++ str "Gym" ++ r
      /\ blank l /\ blank r)
  /\ strip (str "  Gym ") = str "Gym"
  /\ strip (str "  Gym ") = strip (str "Gym")
  /\ str "Gym" = str "Gym".
Proof.
  destruct panel_key_stripped as (Hkey & Hcore & _ & Hstrip & Hmerge).
  split; [|split; [|split]].
  - destruct (Hkey sample_table (7, 13)%nat (str "Gym") 1%Z (str "Door C")
                sample_door_C eq_refl)
      as (prow & rest & l & r & Hf & Hp & Hv & Hl & Hr & _).
    exists prow, rest, l, r. split; [exact Hf|]. split; [exact Hp|].
    split; [exact Hv|]. split; [exact Hl|exact Hr].
  - exact (Hcore (str "  Gym ") (str "  ") (str "Gym") (str " ")
             eq_refl eq_refl eq_refl eq_refl eq_refl).
  - exact (Hstrip (str "  ") (str " ") [] [] (str "Gym")
             eq_refl eq_refl eq_refl eq_refl).
  - exact (Hmerge sample_table (7, 13)%nat (13, 18)%nat _ _ _ _ _ _ _ _
             (str " Gym ") (str "Gym") _ _ (str " ") (str " ") [] []
             (str "Gym") eq_refl eq_refl eq_refl eq_refl eq_refl eq_refl
             eq_refl eq_refl eq_refl eq_refl).
Defined.

(** ** Sorting *)

Section SortedBy.
Context {A : Type} (f : A -> Z).

Lemma insert_by_perm (x : A) (l : list A) : Permutation (insert_by f x l) (x :: l).
Proof.
  induction l as [|y l IH]; cbn [insert_by]; [reflexivity|].
  destruct (f x <=? f y)%Z; [reflexivity|].
  rewrite IH. apply perm_swap.
Qed.

Lemma sorted_by_perm (l : list A) : Permutation (sorted_by f l) l.
Proof.
  induction l as [|x l IH]; [reflexivity|].
  cbn [sorted_by fold_right]. rewrite insert_by_perm. now constructor.
Qed.

Lemma insert_by_sorted (x : A) (l : list A) :
  StronglySorted (fun a b => f a <= f b)%Z l ->
  StronglySorted (fun a b => f a <= f b)%Z (insert_by f x l).
Proof.
  induction 1 as [|y l Hl IH Hy]; cbn [insert_by].
  - repeat constructor.
  - destruct (f x <=? f y)%Z eqn:E.
    + apply Z.leb_le in E. constructor; [now constructor|].
      constructor; [assumption|].
      eapply Forall_impl; [|exact Hy]. cbn. intros. lia.
    + apply Z.leb_gt in E. constructor; [assumption|].
      eapply Permutation_Forall; [symmetry; apply insert_by_perm|].
      constructor; [lia|assumption].
Qed.

Lemma sorted_by_sorted (l : list A) :
  StronglySorted (fun a b => f a <= f b)%Z (sorted_by f l).
Proof.
  induction l as [|x l IH]; [constructor|].
  cbn [sorted_by fold_right]. now apply insert_by_sorted.
Qed.

(** Stability: the elements of one key keep their order. *)
Lemma insert_by_filter (k : Z) (x : A) (l : list A) :
  filter (fun a => f a =? k)%Z (insert_by f x l)
  = filter (fun a => f a =? k)%Z (x :: l).
Proof.
  induction l as [|y l IH]; cbn [insert_by]; [reflexivity|].
  destruct (f x <=? f y)%Z eqn:E; [reflexivity|].
  apply Z.leb_gt in E. cbn [filter] in *. rewrite IH.
  destruct (f x =? k)%Z eqn:Ex; [|reflexivity].
  apply Z.eqb_eq in Ex.
  assert (Ey : (f y =? k)%Z = false) by (apply Z.eqb_neq; lia).
  now rewrite Ey.
Qed.

Lemma sorted_by_stable (k : Z) (l : list A) :
  filter (fun a => f a =? k)%Z (sorted_by f l)
  = filter (fun a => f a =? k)%Z l.
Proof.
  induction l as [|x l IH]; [reflexivity|].
  cbn [sorted_by fold_right]. rewrite insert_by_filter.
  cbn [filter]. fold (sorted_by f l). now rewrite IH.
Qed.

(** A sorted list is its part below a bound, then its part from the
    bound on. *)
Lemma sorted_split (b : Z) (l : list A) :
  StronglySorted (fun a b => f a <= f b)%Z l ->
  l = filter (fun a => f a <? b)%Z l ++ filter (fun a => b <=? f a)%Z l.
Proof.
  induction 1 as [|y l Hl IH Hy]; [reflexivity|].
  cbn [filter]. destruct (f y <? b)%Z eqn:E.
  - apply Z.ltb_lt in E.
    assert (E' : (b <=? f y)%Z = false) by (apply Z.leb_gt; lia).
    rewrite E'. cbn [app]. now f_equal.
  - apply Z.ltb_ge in E.
    assert (E' : (b <=? f y)%Z = true) by (apply Z.leb_le; lia).
    rewrite E'.
    assert (Hlow : filter (fun a => f a <? b)%Z l = []).
    { clear IH Hl. induction Hy as [|z l Hz _ IHy]; [reflexivity|].
      cbn [filter].
      assert (Ez : (f z <? b)%Z = false) by (apply Z.ltb_ge; lia).
      now rewrite Ez. }
    assert (Hhigh : filter (fun a => b <=? f a)%Z l = l).
    { clear IH Hl Hlow. induction Hy as [|z l Hz _ IHy]; [reflexivity|].
      cbn [filter].
      assert (Ez : (b <=? f z)%Z = true) by (apply Z.leb_le; lia).
      rewrite Ez. now f_equal. }
    now rewrite Hlow, Hhigh.
Qed.

End SortedBy.

Lemma filter_filter_imp {A : Type} (p q : A -> bool) (l : list A) :
  (forall a, p a = true -> q a = true) ->
  filter p (filter q l) = filter p l.
Proof.
  intros Hpq. induction l as [|a l IH]; [reflexivity|].
  cbn [filter]. destruct (q a) eqn:Eq; cbn [filter]; rewrite IH.
  - reflexivity.
  - destruct (p a) eqn:Ep; [|reflexivity]. apply Hpq in Ep. congruence.
Qed.

Lemma StronglySorted_filter {A : Type} (R : A -> A -> Prop) (p : A -> bool)
    (l : list A) :
  StronglySorted R l -> StronglySorted R (filter p l).
Proof.
  induction 1 as [|a l Hl IH Ha]; [constructor|].
  cbn [filter]. destruct (p a); [|assumption].
  constructor; [assumption|].
  apply Forall_forall. intros b Hb. apply filter_In in Hb as [Hb _].
  revert b Hb. now apply Forall_forall.
Qed.

Lemma StronglySorted_impl_on {A : Type} (R R' : A -> A -> Prop) (P : A -> Prop)
    (l : list A) :
  (forall a b, P a -> P b -> R a b -> R' a b) ->
  Forall P l -> StronglySorted R l -> StronglySorted R' l.
Proof.
  intros HR HP Hs. induction Hs as [|a l Hl IH Ha]; [constructor|].
  inversion HP as [|? ? Pa Pl]; subst.
  constructor; [now apply IH|].
  rewrite Forall_forall in *. intros b Hb. apply HR; auto.
Qed.

Lemma unresolved_key (kv : text * door) :
  unresolved kv = true -> door_key kv = 99%Z.
Proof.
  unfold unresolved, door_key. intros H. apply Z.ltb_lt in H.
  destruct (door_index (snd kv) >=? 0)%Z eqn:E; [|reflexivity].
  apply Z.geb_le in E. lia.
Qed.

Lemma resolved_key (kv : text * door) :
  resolved kv = true -> door_key kv = door_index (snd kv).
Proof.
  unfold resolved, unresolved, door_key. intros H.
  apply negb_true_iff, Z.ltb_ge in H.
  destruct (door_index (snd kv) >=? 0)%Z eqn:E; [reflexivity|].
  rewrite Z.geb_leb in E. apply Z.leb_gt in E. lia.
Qed.

Lemma draw_doors_texts (show_lines : bool) (n i m : nat) (y : Q)
    (items : list (text * door)) :
  texts (draw_doors show_lines n i m y items)
  = map (fun kv => label (fst kv) (snd kv)) items.
Proof.
  revert y. induction items as [|[name d] items IH]; intros y; [reflexivity|].
  cbn [draw_doors]. unfold texts in *. rewrite !flat_map_app, IH.
  now destruct show_lines.
Qed.

(** C3, as the code has it: the doors of a subpanel are drawn in the
    order of a stable sort on the key, which is the index, or 99 for a
    door without one: the order is ascending in the key, doors of one key
    keep their insertion order, and so do the doors without an index;
    where every index is below 99, the doors with an index come first,
    ascending, and the doors without one last; the indices 5, -1, 2, -1, 1
    give 1, 2, 5, -1, -1. *)
Theorem door_items_order (doors : subpanel_t) :
  let items := door_items doors in
  Permutation items doors
  /\ StronglySorted by_key items
  /\ (forall k,
        filter (fun kv => door_key kv =? k)%Z items
        = filter (fun kv => door_key kv =? k)%Z doors)
  /\ filter unresolved items = filter unresolved doors
  /\ ((forall kv, In kv doors -> (door_index (snd kv) < 99)%Z) ->
      items = filter resolved items ++ filter unresolved doors
      /\ StronglySorted by_index (filter resolved items))
  /\ (forall show_lines n i m y,
        texts (draw_doors show_lines n i m y items)
        = map (fun kv => label (fst kv) (snd kv)) items)
  /\ map (fun kv => (fst kv, door_index (snd kv))) (door_items sample_doors)
     = [(str "e", 1); (str "c", 2); (str "a", 5); (str "b", -1);
        (str "d", -1)]%Z.
Proof.
  intros items.
  assert (Hperm : Permutation items doors) by apply sorted_by_perm.
  assert (Hsorted : StronglySorted by_key items) by apply sorted_by_sorted.
  assert (Hstable : forall k,
             filter (fun kv => door_key kv =? k)%Z items
             = filter (fun kv => door_key kv =? k)%Z doors)
    by (intros k; apply sorted_by_stable).
  assert (Hun : filter unresolved items = filter unresolved doors).
  { rewrite <- (filter_filter_imp unresolved
                  (fun kv => door_key kv =? 99)%Z items),
            <- (filter_filter_imp unresolved
                  (fun kv => door_key kv =? 99)%Z doors).
    - now rewrite Hstable.
    - intros kv H. apply Z.eqb_eq. now apply unresolved_key.
    - intros kv H. apply Z.eqb_eq. now apply unresolved_key. }
  repeat split; try assumption.
  - rewrite <- Hun. rewrite (sorted_split door_key 99 Hsorted) at 1.
    f_equal; apply filter_ext_in; intros kv Hkv;
      apply (Permutation_in _ Hperm), H in Hkv;
      unfold resolved; destruct (unresolved kv) eqn:E; cbn [negb].
    + rewrite (unresolved_key _ E). reflexivity.
    + rewrite resolved_key by (unfold resolved; now rewrite E).
      now apply Z.ltb_lt.
    + rewrite (unresolved_key _ E). reflexivity.
    + rewrite resolved_key by (unfold resolved; now rewrite E).
      apply Z.leb_gt. lia.
  - apply StronglySorted_impl_on
      with (R := by_key) (P := fun kv => resolved kv = true).
    + unfold by_key, by_index. intros a b Ha Hb.
      now rewrite !resolved_key.
    + apply Forall_forall. intros kv Hkv. now apply filter_In in Hkv.
    + now apply StronglySorted_filter.
  - intros. apply draw_doors_texts.
Qed.

Lemma door_items_order_witness :
  door_items sample_doors
  = filter resolved (door_items sample_doors) ++ filter unresolved sample_doors
  /\ StronglySorted by_index (filter resolved (door_items sample_doors)).
Proof.
  apply (door_items_order sample_doors).
  intros kv Hkv. cbn in Hkv.
  repeat (destruct Hkv as [<-|Hkv]; [reflexivity|]). destruct Hkv.
Defined.

(** C3, as the claim has it, fails: a door with the index 100 is drawn
    after a door without an index. *)
Lemma unresolved_before_index_100 :
  map (fun kv => (fst kv, door_index (snd kv)))
    (door_items [(str "a", plain_door 100); (str "b", plain_door (-1))])
  = [(str "b", (-1)%Z); (str "a", 100%Z)].
Proof. reflexivity. Qed.

(** ** Door labels *)

Lemma short_label_renames :
  map short_label priority = map spec_short priority.
Proof. reflexivity. Qed.

(** One turn of the loop adds the line of its kind, or nothing. *)
Lemma hardware_line_spec (hw : dict text hw_info) (lines : list text)
    (key : text) :
  short_label key = spec_short key ->
  hardware_line hw lines key = lines ++ spec_kind_line hw key.
Proof.
  intros E. unfold hardware_line, spec_kind_line.
  destruct (dict_get key hw) as [info|]; [|now rewrite app_nil_r].
  destruct (address info) as [addr|]; [|now rewrite app_nil_r].
  rewrite Z.gtb_ltb, E. destruct (0 <? addr)%Z; [reflexivity|].
  now rewrite app_nil_r.
Qed.

Lemma fold_hardware_line (hw : dict text hw_info) (ks : list text)
    (lines : list text) :
  Forall (fun k => short_label k = spec_short k) ks ->
  fold_left (hardware_line hw) ks lines
  = lines ++ flat_map (spec_kind_line hw) ks.
Proof.
  intros Hks. revert lines.
  induction Hks as [|k ks Hk _ IH]; intros lines; cbn [fold_left flat_map].
  - now rewrite app_nil_r.
  - now rewrite IH, hardware_line_spec, app_assoc.
Qed.

Lemma priority_short : Forall (fun k => short_label k = spec_short k) priority.
Proof. repeat constructor. Qed.



Example sample_label :
  label_lines (str "Door A")
    (mk_door 7
       [(str "Reader", mk_hw (Some 3%Z) (Some 7%Z) []);
        (str "Alternate Reader", mk_hw (Some 3%Z) (Some 9%Z) []);
        (str "Strike", mk_hw (Some 3%Z) (Some 0%Z) []);
        (str "Rex #2", mk_hw None (Some 12%Z) [])])
  = [str "Door A"; str "Addr: 7"; str "RDR Output:7"; str "REX2 Input:12"].
Proof. reflexivity. Qed.

(** ** Layout *)

Ltac qnorm := unfold Qdiv in *; change (/ 2) with (1 # 2) in *.

Lemma Qnat_succ (k : nat) : Qnat (S k) == Qnat k + 1.
Proof.
  unfold Qnat. rewrite Nat2Z.inj_succ. unfold Z.succ.
  now rewrite inject_Z_plus.
Qed.

Lemma Qnat_le (a b : nat) : (a <= b)%nat -> Qnat a <= Qnat b.
Proof. intros H. unfold Qnat. rewrite <- Zle_Qle. lia. Qed.

Lemma Qnat_pos (n : nat) : (1 <= n)%nat -> 0 < Qnat n.
Proof.
  intros H. apply Qlt_le_trans with (Qnat 1); [reflexivity|now apply Qnat_le].
Qed.

Lemma Qnat_nonneg (n : nat) : 0 <= Qnat n.
Proof. apply (@Qnat_le 0 n). lia. Qed.

(** Columns. *)
Lemma col_start_nonneg (n i : nat) : (1 <= n)%nat -> 0 <= col_start n i.
Proof.
  intros Hn. unfold col_start. apply Qle_shift_div_l; [now apply Qnat_pos|].
  rewrite Qmult_0_l. apply Qnat_nonneg.
Qed.

Lemma col_end_le_1 (n i : nat) : (i < n)%nat -> col_end n i <= 1.
Proof.
  intros Hi. unfold col_end.
  apply Qle_shift_div_r; [apply Qnat_pos; lia|].
  rewrite Qmult_1_l. apply Qnat_le. lia.
Qed.

Lemma col_width (n i : nat) :
  (1 <= n)%nat -> col_end n i == col_start n i + / Qnat n.
Proof.
  intros Hn. unfold col_end, col_start.
  replace (i + 1)%nat with (S i) by lia. rewrite Qnat_succ.
  pose proof (Qnat_pos Hn). field. lra.
Qed.

Lemma col_width_pos (n : nat) : (1 <= n)%nat -> 0 < / Qnat n.
Proof. intros Hn. now apply Qinv_lt_0_compat, Qnat_pos. Qed.

Lemma col_order (n i j : nat) :
  (1 <= n)%nat -> (i < j)%nat -> col_end n i <= col_start n j.
Proof.
  intros Hn Hij. unfold col_end, col_start, Qdiv.
  apply Qmult_le_compat_r; [apply Qnat_le; lia|].
  apply Qlt_le_weak. now apply col_width_pos.
Qed.

(** The shares of the band of doors. *)
Lemma door_height_share (m : nat) : door_height m == 0.8 * door_share m.
Proof. unfold door_height, door_share. ring. Qed.

Lemma door_spacing_share (m : nat) : door_spacing m == 0.2 * door_share m.
Proof. unfold door_spacing, door_share. ring. Qed.

Lemma door_share_pos (m : nat) : (1 <= m)%nat -> 0 < door_share m.
Proof.
  intros Hm. unfold door_share, Qdiv. apply Qmult_lt_0_compat; [reflexivity|].
  now apply col_width_pos.
Qed.

Lemma door_shares_fill (m : nat) :
  (1 <= m)%nat -> Qnat m * door_share m == door_region_height.
Proof.
  intros Hm. unfold door_share. pose proof (Qnat_pos Hm). field. lra.
Qed.

Lemma door_height_pos (m : nat) : (1 <= m)%nat -> 0 < door_height m.
Proof.
  intros Hm. rewrite door_height_share. pose proof (door_share_pos Hm). lra.
Qed.

Lemma door_spacing_pos (m : nat) : (1 <= m)%nat -> 0 < door_spacing m.
Proof.
  intros Hm. rewrite door_spacing_share. pose proof (door_share_pos Hm). lra.
Qed.

Lemma door_pitch (m : nat) : door_height m + door_spacing m == door_share m.
Proof. rewrite door_height_share, door_spacing_share. ring. Qed.

(** Boxes of one column. *)
Lemma sub_rect_cell (n i : nat) :
  (1 <= n)%nat -> in_cell n i 0.7 0.8 (sub_rect n i).
Proof.
  intros Hn. pose proof (col_width i Hn) as E. pose proof (col_width_pos Hn).
  unfold in_cell, sub_rect, sub_x_center, sub_width, sub_y, sub_height.
  cbn [rx ry rw rh]. qnorm. repeat split; lra.
Qed.

Lemma door_rect_cell (n i m : nat) (y : Q) :
  (1 <= n)%nat ->
  in_cell n i (y - door_height m / 2) (y + door_height m / 2)
    (door_rect n i m y).
Proof.
  intros Hn. pose proof (col_width i Hn) as E. pose proof (col_width_pos Hn).
  unfold in_cell, door_rect, sub_x_center, sub_width.
  cbn [rx ry rw rh]. qnorm. repeat split; lra.
Qed.

Lemma in_cell_weaken (n i : nat) (lo hi lo' hi' : Q) (b : rect) :
  lo' <= lo -> hi <= hi' -> in_cell n i lo hi b -> in_cell n i lo' hi' b.
Proof. unfold in_cell. intros Hlo Hhi (H1 & H2 & H3 & H4). repeat split; lra. Qed.

(** The door boxes stay in their column, under the top of the first and
    above what [k] shares leave, less the last spacing. *)
Lemma door_rects_cell (n i m k : nat) (y c : Q) (b : rect) :
  (1 <= n)%nat -> (1 <= m)%nat ->
  Qnat k * door_share m <= c ->
  In b (door_rects n i m y k) ->
  in_cell n i (y + door_height m / 2 - c + door_spacing m)
    (y + door_height m / 2) b.
Proof.
  intros Hn Hm. pose proof (door_height_pos Hm) as Hh.
  pose proof (door_spacing_pos Hm) as Hs. pose proof (door_pitch m) as Hp.
  revert y c. induction k as [|k IH]; intros y c Hc; [intros []|].
  rewrite Qnat_succ in Hc.
  assert (Hk : 0 <= Qnat k * door_share m).
  { apply Qmult_le_0_compat; [apply Qnat_nonneg|].
    apply Qlt_le_weak. now apply door_share_pos. }
  assert (Hc' : Qnat k * door_share m + door_share m <= c).
  { eapply Qle_trans; [|exact Hc]. apply Qle_lteq. right. ring. }
  cbn [door_rects In]. intros [<-|Hb].
  - eapply in_cell_weaken; [| |now apply door_rect_cell]; qnorm; lra.
  - apply (IH (y - (door_height m + door_spacing m)) (c - door_share m)) in Hb;
      [|lra].
    eapply in_cell_weaken; [| |exact Hb]; qnorm; lra.
Qed.

Lemma door_rects_apart (n i m k : nat) (y : Q) :
  (1 <= n)%nat -> (1 <= m)%nat ->
  ForallOrdPairs apart (door_rects n i m y k).
Proof.
  intros Hn Hm. pose proof (door_height_pos Hm) as Hh.
  pose proof (door_spacing_pos Hm) as Hs. pose proof (door_pitch m) as Hp.
  revert y. induction k as [|k IH]; intros y; cbn [door_rects]; constructor.
  - apply Forall_forall. intros b Hb.
    apply (@door_rects_cell n i m k _ (Qnat k * door_share m)) in Hb;
      [|assumption|assumption|apply Qle_refl].
    destruct Hb as (_ & _ & _ & Htop).
    unfold apart. cbn [door_rect ry rh]. qnorm. lra.
  - apply IH.
Qed.

Lemma boxes_app (l l' : list artist) : boxes (l ++ l') = boxes l ++ boxes l'.
Proof. apply flat_map_app. Qed.

Lemma draw_doors_boxes (show_lines : bool) (n i m : nat) (y : Q)
    (items : list (text * door)) :
  boxes (draw_doors show_lines n i m y items)
  = door_rects n i m y (List.length items).
Proof.
  revert y. induction items as [|[name d] items IH]; intros y; [reflexivity|].
  cbn [draw_doors List.length door_rects]. rewrite !boxes_app, IH.
  now destruct show_lines.
Qed.

Lemma ForallOrdPairs_app {A : Type} (R : A -> A -> Prop) (l1 l2 : list A) :
  ForallOrdPairs R l1 -> ForallOrdPairs R l2 ->
  (forall a b, In a l1 -> In b l2 -> R a b) ->
  ForallOrdPairs R (l1 ++ l2).
Proof.
  intros H1 H2 Hc. induction H1 as [|a l1 Ha Hl IH]; [assumption|].
  cbn [app]. constructor.
  - apply Forall_app. split; [assumption|].
    apply Forall_forall. intros b Hb. apply Hc; [now left|assumption].
  - apply IH. intros x y Hx Hy. apply Hc; [now right|assumption].
Qed.

Lemma ForallOrdPairs_impl {A : Type} (R R' : A -> A -> Prop) (l : list A) :
  (forall a b, R a b -> R' a b) ->
  ForallOrdPairs R l -> ForallOrdPairs R' l.
Proof.
  intros HR H. induction H as [|a l Ha Hl IH]; constructor; [|assumption].
  eapply Forall_impl; [|exact Ha]. apply HR.
Qed.

Lemma apart_disjoint (a b : rect) : apart a b -> disjoint a b.
Proof. unfold apart, disjoint. intros H. right. right. right. lra. Qed.

(** The boxes of one subpanel: its own, then those of its doors. *)
Lemma draw_subpanel_boxes (show_lines : bool) (subpanels : panel_t)
    (n i : nat) (sp : Z) :
  let m := List.length (get_or_empty sp subpanels) in
  boxes (draw_subpanel show_lines subpanels n i sp)
  = sub_rect n i
    :: door_rects n i m (door_region_top - door_height m / 2) m.
Proof.
  intros m. unfold draw_subpanel. rewrite !boxes_app. fold m.
  assert (Hlen : List.length (door_items (get_or_empty sp subpanels)) = m)
    by apply Permutation_length, sorted_by_perm.
  destruct show_lines; cbn [boxes flat_map app];
    (destruct (m =? 0)%nat eqn:E;
     [apply Nat.eqb_eq in E; now rewrite E
     |now rewrite draw_doors_boxes, Hlen]).
Qed.

Lemma door_column_cell (n i m : nat) (b : rect) :
  (1 <= n)%nat -> (1 <= m)%nat ->
  In b (door_rects n i m (door_region_top - door_height m / 2) m) ->
  in_cell n i 0.1 0.6 b.
Proof.
  intros Hn Hm Hb.
  apply (@door_rects_cell n i m m _ door_region_height) in Hb;
    try assumption.
  - pose proof (door_spacing_pos Hm).
    eapply in_cell_weaken; [| |exact Hb];
      unfold door_region_height, door_region_top, door_region_bottom;
      qnorm; lra.
  - rewrite door_shares_fill by assumption. apply Qle_refl.
Qed.

Lemma door_column_empty (n i : nat) (y : Q) : door_rects n i 0 y 0 = [].
Proof. reflexivity. Qed.

Lemma draw_subpanel_cell (show_lines : bool) (subpanels : panel_t)
    (n i : nat) (sp : Z) (b : rect) :
  (1 <= n)%nat ->
  In b (boxes (draw_subpanel show_lines subpanels n i sp)) ->
  in_cell n i 0.1 0.8 b.
Proof.
  intros Hn. rewrite draw_subpanel_boxes. cbn [In]. intros [<-|Hb].
  - eapply in_cell_weaken; [| |now apply sub_rect_cell]; lra.
  - destruct (List.length (get_or_empty sp subpanels)) as [|m] eqn:Em;
      [destruct Hb|].
    apply door_column_cell in Hb; [|assumption|lia].
    eapply in_cell_weaken; [| |exact Hb]; lra.
Qed.

Lemma draw_subpanel_disjoint (show_lines : bool) (subpanels : panel_t)
    (n i : nat) (sp : Z) :
  (1 <= n)%nat ->
  ForallOrdPairs disjoint (boxes (draw_subpanel show_lines subpanels n i sp)).
Proof.
  intros Hn. rewrite draw_subpanel_boxes.
  destruct (List.length (get_or_empty sp subpanels)) as [|m] eqn:Em;
    [repeat constructor|].
  constructor.
  - apply Forall_forall. intros b Hb.
    apply door_column_cell in Hb; [|assumption|lia].
    destruct Hb as (_ & _ & _ & Htop).
    unfold disjoint, sub_rect, sub_y, sub_height. cbn [rx ry rw rh].
    right. right. right. qnorm. lra.
  - eapply ForallOrdPairs_impl; [apply apart_disjoint|].
    apply door_rects_apart; [assumption|lia].
Qed.

Lemma draw_subpanels_cell (show_lines : bool) (subpanels : panel_t) (n : nat)
    (ks : list Z) (i : nat) (b : rect) :
  (1 <= n)%nat ->
  In b (boxes (draw_subpanels show_lines subpanels n i ks)) ->
  exists j, (i <= j < i + List.length ks)%nat /\ in_cell n j 0.1 0.8 b.
Proof.
  intros Hn. revert i. induction ks as [|sp ks IH]; intros i; [intros []|].
  cbn [draw_subpanels]. rewrite boxes_app. intros Hb.
  apply in_app_or in Hb as [Hb|Hb].
  - exists i. split; [cbn [List.length]; lia|].
    now apply draw_subpanel_cell in Hb.
  - apply IH in Hb as (j & Hj & Hc). exists j.
    split; [cbn [List.length]; lia|assumption].
Qed.

Lemma draw_subpanels_disjoint (show_lines : bool) (subpanels : panel_t)
    (n : nat) (ks : list Z) (i : nat) :
  (1 <= n)%nat ->
  ForallOrdPairs disjoint
    (boxes (draw_subpanels show_lines subpanels n i ks)).
Proof.
  intros Hn. revert i. induction ks as [|sp ks IH]; intros i; [constructor|].
  cbn [draw_subpanels]. rewrite boxes_app. apply ForallOrdPairs_app.
  - now apply draw_subpanel_disjoint.
  - apply IH.
  - intros a b Ha Hb. apply draw_subpanel_cell in Ha; [|assumption].
    apply draw_subpanels_cell in Hb as (j & Hj & Hb); [|assumption].
    destruct Ha as (_ & Ha & _). destruct Hb as (Hb & _).
    pose proof (@col_order n i j Hn ltac:(lia)).
    unfold disjoint. left. lra.
Qed.

Lemma in_cell_unit (n i : nat) (lo hi : Q) (b : rect) :
  (i < n)%nat -> 0 <= lo -> hi <= 1 -> in_cell n i lo hi b -> in_unit b.
Proof.
  intros Hi Hlo Hhi (H1 & H2 & H3 & H4).
  pose proof (@col_start_nonneg n i ltac:(lia)).
  pose proof (col_end_le_1 Hi). unfold in_unit. repeat split; lra.
Qed.

Lemma door_rects_height (n i m k : nat) (y : Q) :
  Forall (fun b => rh b == 0.8 * door_share m) (door_rects n i m y k).
Proof.
  revert y. induction k as [|k IH]; intros y; constructor; [|apply IH].
  cbn [door_rect rh]. apply door_height_share.
Qed.

Lemma panel_rect_unit : in_unit panel_rect.
Proof.
  unfold in_unit, panel_rect, panel_x, panel_y, panel_width, panel_height.
  cbn [rx ry rw rh]. qnorm. repeat split; lra.
Qed.

Lemma diagram_boxes (panel_name : text) (subpanels : panel_t)
    (show_lines : bool) :
  (1 <= List.length subpanels)%nat ->
  exists fig,
    diagram panel_name subpanels show_lines = Some fig
    /\ boxes (artists fig)
       = panel_rect
         :: boxes (draw_subpanels show_lines subpanels
                     (List.length subpanels) 0
                     (sorted_by (fun sp => sp) (keys subpanels))).
Proof.
  intros Hn. unfold diagram.
  destruct (List.length subpanels =? 0)%nat eqn:E;
    [apply Nat.eqb_eq in E; lia|].
  eexists. split; reflexivity.
Qed.

(** Every box is drawn with the padding of the one box style. *)
Lemma outlines_grow (l : list artist) :
  pads_are box_pad l -> outlines l = map (grow box_pad) (boxes l).
Proof.
  induction 1 as [|a l Ha _ IH]; [reflexivity|].
  unfold outlines, boxes in *. cbn [flat_map]. rewrite IH, map_app.
  destruct a as [r p c|x y t|x y1 y2]; [subst p|..]; reflexivity.
Qed.

Lemma draw_doors_pads (show_lines : bool) (n i m : nat) (y : Q)
    (items : list (text * door)) :
  pads_are box_pad (draw_doors show_lines n i m y items).
Proof.
  revert y. induction items as [|[name d] items IH]; intros y; [constructor|].
  cbn [draw_doors]. apply Forall_app. split;
    [destruct show_lines; repeat constructor|].
  repeat constructor. apply IH.
Qed.

Lemma draw_subpanel_pads (show_lines : bool) (subpanels : panel_t)
    (n i : nat) (sp : Z) :
  pads_are box_pad (draw_subpanel show_lines subpanels n i sp).
Proof.
  unfold draw_subpanel. apply Forall_app. split;
    [destruct show_lines; repeat constructor|].
  repeat constructor.
  destruct (List.length (get_or_empty sp subpanels) =? 0)%nat;
    [constructor|apply draw_doors_pads].
Qed.

Lemma draw_subpanels_pads (show_lines : bool) (subpanels : panel_t)
    (n : nat) (ks : list Z) (i : nat) :
  pads_are box_pad (draw_subpanels show_lines subpanels n i ks).
Proof.
  revert i. induction ks as [|sp ks IH]; intros i; [constructor|].
  cbn [draw_subpanels]. apply Forall_app. split;
    [apply draw_subpanel_pads|apply IH].
Qed.

Lemma diagram_outlines (panel_name : text) (subpanels : panel_t)
    (show_lines : bool) (fig : figure) :
  diagram panel_name subpanels show_lines = Some fig ->
  outlines (artists fig) = map (grow box_pad) (boxes (artists fig)).
Proof.
  unfold diagram. destruct (List.length subpanels =? 0)%nat; [discriminate|].
  intros [= <-]. cbn [artists]. apply outlines_grow.
  constructor; [reflexivity|]. constructor; [exact I|].
  apply draw_subpanels_pads.
Qed.

(** C4, as the code has it: a panel with at least one subpanel gets a
    figure; the rectangle of every box of it (panel, subpanels, doors),
    before the padding of the box style, lies in the unit square; no two
    of these rectangles overlap; in each subpanel the door rectangles
    are apart, each of them 80% of the share the band from 0.1 to 0.6
    gives one door, the spacing the other 20%; the box as drawn is its
    rectangle grown by the padding 0.02 on each side.  Coordinates are
    exact rationals. *)
Theorem layout_in_unit_square (panel_name : text) (subpanels : panel_t)
    (show_lines : bool) :
  (1 <= List.length subpanels)%nat ->
  exists fig,
    diagram panel_name subpanels show_lines = Some fig
    /\ Forall in_unit (boxes (artists fig))
    /\ ForallOrdPairs disjoint (boxes (artists fig))
    /\ (forall i sp,
          let n := List.length subpanels in
          let m := List.length (get_or_empty sp subpanels) in
          let door_boxes :=
            door_rects n i m (door_region_top - door_height m / 2) m in
          boxes (draw_subpanel show_lines subpanels n i sp)
          = sub_rect n i :: door_boxes
          /\ ((1 <= m)%nat ->
              ForallOrdPairs apart door_boxes
              /\ Forall (fun b => rh b == 0.8 * door_share m) door_boxes
              /\ door_spacing m == 0.2 * door_share m
              /\ Qnat m * door_share m
                 == door_region_top - door_region_bottom))
    /\ outlines (artists fig) = map (grow box_pad) (boxes (artists fig))
    /\ box_pad == 0.02.
Proof.
  intros Hn. destruct (@diagram_boxes panel_name subpanels show_lines Hn)
    as (fig & Hfig & Hboxes).
  exists fig. split; [exact Hfig|].
  pose proof (diagram_outlines _ _ _ Hfig) as Hout.
  rewrite Hboxes in *.
  assert (Hlen : List.length (sorted_by (fun sp => sp) (keys subpanels))
                 = List.length subpanels).
  { rewrite (Permutation_length (sorted_by_perm _ _)). apply length_map. }
  assert (Hcell : forall b,
             In b (boxes (draw_subpanels show_lines subpanels
                            (List.length subpanels) 0
                            (sorted_by (fun sp => sp) (keys subpanels)))) ->
             exists j, (j < List.length subpanels)%nat
                       /\ in_cell (List.length subpanels) j 0.1 0.8 b).
  { intros b Hb. apply draw_subpanels_cell in Hb as (j & Hj & Hb);
      [|assumption].
    exists j. split; [lia|assumption]. }
  split; [|split; [|split; [|split; [exact Hout|reflexivity]]]].
  - constructor; [apply panel_rect_unit|].
    apply Forall_forall. intros b Hb. apply Hcell in Hb as (j & Hj & Hb).
    eapply in_cell_unit; [exact Hj| | |exact Hb]; lra.
  - constructor; [|now apply draw_subpanels_disjoint].
    apply Forall_forall. intros b Hb.
    apply Hcell in Hb as (j & _ & (_ & _ & _ & Htop)).
    unfold disjoint, panel_rect, panel_y, panel_height. cbn [rx ry rw rh].
    right. right. right. qnorm. lra.
  - intros i sp n m door_boxes. split; [apply draw_subpanel_boxes|].
    intros Hm. split; [now apply door_rects_apart|].
    split; [apply door_rects_height|].
    split; [apply door_spacing_share|now apply door_shares_fill].
Qed.

Lemma layout_in_unit_square_witness :
  exists fig,
    diagram (str "Gym")
      [(3%Z, sample_doors); (0%Z, [(str "f", plain_door 4)])] true
    = Some fig
    /\ Forall in_unit (boxes (artists fig))
    /\ ForallOrdPairs disjoint (boxes (artists fig))
    /\ outlines (artists fig) = map (grow box_pad) (boxes (artists fig)).
Proof.
  destruct (@layout_in_unit_square (str "Gym")
              [(3%Z, sample_doors); (0%Z, [(str "f", plain_door 4)])] true)
    as (fig & Hfig & Hunit & Hdis & _ & Hout & _).
  - cbn. lia.
  - exists fig. split; [exact Hfig|]. split; [exact Hunit|].
    split; [exact Hdis|exact Hout].
Defined.

(** C4, as the claim has it, fails of the boxes as drawn: with its
    padding the box of the panel reaches above the unit square, and the
    first two of three door boxes of a subpanel overlap. *)
Lemma outlines_leave_unit_square :
  exists fig top d0 d1,
    diagram (str "P") three_door_panel false = Some fig
    /\ nth_error (outlines (artists fig)) 0 = Some top
    /\ ~ in_unit top
    /\ nth_error (outlines (artists fig)) 2 = Some d0
    /\ nth_error (outlines (artists fig)) 3 = Some d1
    /\ ~ disjoint d0 d1.
Proof.
  eexists _, _, _, _. split; [reflexivity|].
  split; [reflexivity|]. split.
  - intros (_ & _ & _ & H). vm_compute in H. apply H. reflexivity.
  - split; [reflexivity|]. split; [reflexivity|].
    intros H. vm_compute in H.
    destruct H as [H|[H|[H|H]]]; apply H; reflexivity.
Qed.

(** C8: for a panel without subpanels no figure is built, no file is
    written and no exception is raised, whatever the file system
    answers. *)
Theorem empty_panel_no_diagram (sys : file_system) (panel_name : text)
    (subpanels : panel_t) (output_file : text) (show_lines : bool)
    (fs : files) :
  List.length subpanels = 0%nat ->
  diagram panel_name subpanels show_lines = None
  /\ draw_panel_diagram sys panel_name subpanels output_file show_lines fs
     = Ok fs.
Proof.
  intros Hn. unfold draw_panel_diagram, diagram. now rewrite Hn.
Qed.

Lemma empty_panel_no_diagram_witness :
  diagram (str "Gym") [] false = None
  /\ draw_panel_diagram (flat_dir (str "out")) (str "Gym") []
       (str "out/Gym.png") false []
     = Ok [].
Proof.
  apply (@empty_panel_no_diagram (flat_dir (str "out")) (str "Gym") []).
  reflexivity.
Defined.

(** * Further properties *)

(** ** What the patterns capture *)

Lemma backtrack_inv {A : Type} (f : nat -> option A) (n : nat) (r : A) :
  backtrack f n = Some r -> exists k, (1 <= k <= n)%nat /\ f k = Some r.
Proof.
  induction n as [|n IH]; [discriminate|].
  cbn [backtrack]. destruct (f (S n)) as [r'|] eqn:E.
  - intros [= <-]. exists (S n). split; [lia|assumption].
  - intros H. apply IH in H as (k & Hk & Hf). exists k. split; [lia|assumption].
Qed.

Lemma firstn_in_run (k : cls) (s : text) (j : nat) :
  (1 <= j <= run_length k s)%nat -> run_of k (firstn j s).
Proof.
  revert j. induction s as [|c s IH]; intros j Hj; cbn [run_length] in Hj;
    [lia|].
  destruct (in_cls k c) eqn:Ec; [|lia].
  destruct j as [|j]; [lia|]. cbn [firstn]. split; [discriminate|].
  cbn [forallb]. rewrite Ec. cbn [andb].
  destruct j as [|j]; [reflexivity|]. apply IH. lia.
Qed.

(** The groups of a match are runs of digits, as many as the pattern has
    groups. *)
Lemma match_here_groups (p : pattern) (s : text) (m : list text) :
  (forall k, In (Cap k) p -> k = Digit) ->
  match_here p s = Some m ->
  Forall (run_of Digit) m
  /\ List.length m
     = List.length (filter (fun i => match i with Cap _ => true | _ => false end) p).
Proof.
  revert s m. induction p as [|i p IH]; intros s m Hcap.
  - intros [= <-]. split; [constructor|reflexivity].
  - assert (Hcap' : forall k, In (Cap k) p -> k = Digit)
      by (intros k Hk; apply Hcap; now right).
    destruct i as [c|k|c|k]; cbn [match_here filter].
    + destruct s as [|a s]; [discriminate|].
      destruct (eq_nocase c a); [|discriminate]. now apply IH.
    + intros H. apply backtrack_inv in H as (j & _ & H). now apply IH in H.
    + destruct s as [|a s]; [now apply IH|].
      destruct (eq_nocase c a); [|now apply IH].
      destruct (match_here p s) as [r|] eqn:E.
      * intros [= <-]. now apply IH in E.
      * now apply IH.
    + intros H. apply backtrack_inv in H as (j & Hj & H).
      destruct (match_here p (skipn j s)) as [r|] eqn:E; [|discriminate].
      cbn [option_map] in H. injection H as <-.
      apply IH in E as [Hr Hlen]; [|assumption].
      split; [|cbn [List.length]; now rewrite Hlen].
      constructor; [|assumption].
      rewrite (Hcap k) in * by now left. now apply firstn_in_run.
Qed.

Lemma search_inv (p : pattern) (s : text) (m : list text) :
  search p s = Some m -> exists j, match_here p (skipn j s) = Some m.
Proof.
  induction s as [|c s IH]; cbn [search].
  - destruct (match_here p []) eqn:E; [|discriminate].
    intros [= <-]. now exists 0%nat.
  - destruct (match_here p (c :: s)) eqn:E.
    + intros [= <-]. now exists 0%nat.
    + intros H. apply IH in H as (j & Hj). now exists (S j).
Qed.

Lemma digits_value_nonneg (g : text) (acc : Z) :
  forallb is_digit g = true -> (0 <= acc)%Z ->
  (0 <= fold_left (fun a c => 10 * a + digit_val c)%Z g acc)%Z.
Proof.
  revert acc. induction g as [|c g IH]; intros acc Hg Hacc; [assumption|].
  cbn [forallb] in Hg. apply andb_true_iff in Hg as [Hc Hg].
  cbn [fold_left]. apply IH; [assumption|].
  assert (0 <= digit_val c)%Z.
  { unfold is_digit in Hc. apply andb_true_iff in Hc as [Hc _].
    apply N.leb_le in Hc. unfold digit_val. lia. }
  lia.
Qed.

Lemma py_int_nonneg (g : text) (z : Z) : py_int g = Some z -> (0 <= z)%Z.
Proof.
  unfold py_int. destruct g as [|c g]; [discriminate|].
  destruct (forallb is_digit (c :: g)) eqn:Hg; [|discriminate].
  destruct (Z.of_nat (List.length (c :: g)) <=? max_str_digits)%Z;
    [|discriminate].
  intros [= <-]. apply digits_value_nonneg; [exact Hg|lia].
Qed.

Lemma find_match_groups (t : text) (m : list text) :
  find_match t = Some m ->
  exists g1 g2, m = [g1; g2] /\ run_of Digit g1 /\ run_of Digit g2.
Proof.
  unfold find_match. intros H.
  assert (Hm : Forall (run_of Digit) m /\ List.length m = 2%nat).
  { destruct (search pat_address t) as [m'|] eqn:E.
    - injection H as <-. apply search_inv in E as (j & E).
      apply match_here_groups in E; [exact E|].
      intros k Hk. cbv in Hk.
      repeat (destruct Hk as [Hk|Hk]; [congruence|]). destruct Hk.
    - apply search_inv in H as (j & H).
      apply match_here_groups in H; [exact H|].
      intros k Hk. cbv in Hk.
      repeat (destruct Hk as [Hk|Hk]; [congruence|]). destruct Hk. }
  destruct Hm as [Hd Hlen].
  destruct m as [|g1 [|g2 [|g3 m]]]; try discriminate.
  inversion Hd as [|? ? H1 Hd']; subst. inversion Hd' as [|? ? H2 _]; subst.
  now exists g1, g2.
Qed.

Lemma extract_raw (t : text) : raw (extract t) = t.
Proof. unfold extract. now destruct (find_match t). Qed.

Lemma extract_by_groups (t : text) (m : list text) :
  find_match t = Some m ->
  exists g1 g2,
    m = [g1; g2] /\ run_of Digit g1 /\ run_of Digit g2
    /\ subpanel (extract t) = py_int g1 /\ address (extract t) = py_int g2.
Proof.
  intros E. unfold extract. rewrite E.
  apply find_match_groups in E as (g1 & g2 & -> & H1 & H2).
  exists g1, g2. split; [reflexivity|]. split; [assumption|].
  split; [assumption|]. split; reflexivity.
Qed.

Lemma extract_nonneg (t : text) :
  (forall sp, subpanel (extract t) = Some sp -> (0 <= sp)%Z)
  /\ (forall ad, address (extract t) = Some ad -> (0 <= ad)%Z).
Proof.
  destruct (find_match t) as [m|] eqn:E.
  - destruct (extract_by_groups _ E) as (g1 & g2 & _ & _ & _ & -> & ->).
    split; intros z; apply py_int_nonneg.
  - unfold extract. rewrite E. split; discriminate.
Qed.

Lemma extract_well_formed (t : text) : well_formed_info (extract t).
Proof.
  split; [now rewrite extract_raw|apply extract_nonneg].
Qed.

(** X1: the raw text of an extraction is the text given; when neither
    pattern matches, subpanel and address are absent; when one matches,
    it captures two runs of digits and subpanel and address are what
    [int] makes of them: the value of a run of at most 4300 digits,
    nothing for a longer one (the [ValueError] is caught), each on its
    own; what is present is not negative. *)
Theorem extract_groups_to_integers (t : text) :
  raw (extract t) = t
  /\ (find_match t = None ->
      subpanel (extract t) = None /\ address (extract t) = None)
  /\ (forall m, find_match t = Some m ->
        exists g1 g2,
          m = [g1; g2] /\ run_of Digit g1 /\ run_of Digit g2
          /\ subpanel (extract t) = py_int g1
          /\ address (extract t) = py_int g2)
  /\ (forall g, run_of Digit g ->
        ((Z.of_nat (List.length g) <= max_str_digits)%Z ->
         py_int g = Some (digits_value g))
        /\ ((max_str_digits < Z.of_nat (List.length g))%Z ->
            py_int g = None))
  /\ (forall sp, subpanel (extract t) = Some sp -> (0 <= sp)%Z)
  /\ (forall ad, address (extract t) = Some ad -> (0 <= ad)%Z).
Proof.
  split; [apply extract_raw|]. split.
  - intros E. unfold extract. now rewrite E.
  - split; [intros m; apply extract_by_groups|]. split.
    + intros g Hg. split; [now apply run_of_digits_int|apply long_digits_int].
    + apply extract_nonneg.
Qed.

(** ** The hardware of a door *)

Lemma add_hardware_cases (hd : dict text hw_info) (r : row) :
  add_hardware hd r = hd
  \/ exists name t,
       Name r = Val name /\ In name hardware_fields
       /\ t = match Value r with Val s => s | NaN => [] end
       /\ add_hardware hd r = dict_set name (extract t) hd.
Proof.
  unfold add_hardware. destruct (Name r) as [|name]; [now left|].
  destruct (existsb (text_eqb name) hardware_fields) eqn:E; [|now left].
  right. exists name. eexists. repeat split.
  apply existsb_exists in E as (k & Hk & E). apply text_eqb_eq in E.
  now subst.
Qed.

Lemma add_hardware_ok (hd : dict text hw_info) (r : row) :
  hardware_ok hd -> hardware_ok (add_hardware hd r).
Proof.
  intros [Hnd Hin].
  destruct (add_hardware_cases hd r) as [->|(name & t & _ & Hname & _ & ->)];
    [now split|].
  split; [now apply NoDup_dict_set|].
  intros k info Hk. apply In_dict_set in Hk as [[-> ->]|Hk]; [|now apply Hin].
  split; [assumption|now exists t].
Qed.

Lemma fold_add_hardware_ok (rows : list row) (hd : dict text hw_info) :
  hardware_ok hd -> hardware_ok (fold_left add_hardware rows hd).
Proof.
  revert hd. induction rows as [|r rows IH]; intros hd Hhd; [assumption|].
  cbn [fold_left]. now apply IH, add_hardware_ok.
Qed.

Lemma hardware_of_block_ok (block : list row) :
  hardware_ok (hardware_of_block block).
Proof.
  assert (Hnil : hardware_ok []) by (split; [constructor|intros ? ? []]).
  unfold hardware_of_block.
  destruct (indices_where (name_is "Hardware") block 0); [assumption|].
  now apply fold_add_hardware_ok.
Qed.

Lemma dict_get_add_hardware (k : text) (hd : dict text hw_info) (r : row) :
  dict_get k (add_hardware hd r) = last_field k [r] (dict_get k hd).
Proof.
  unfold add_hardware, last_field. cbn [fold_left].
  destruct (Name r) as [|name]; [reflexivity|].
  destruct (existsb (text_eqb name) hardware_fields);
    [|now rewrite andb_false_r].
  rewrite andb_true_r. destruct (text_eqb k name) eqn:E.
  - apply text_eqb_eq in E. subst. apply dict_get_set_same.
  - apply dict_get_set_other. intros ->. now rewrite text_eqb_refl in E.
Qed.

Lemma dict_get_fold_add_hardware (k : text) (rows : list row)
    (hd : dict text hw_info) :
  dict_get k (fold_left add_hardware rows hd)
  = last_field k rows (dict_get k hd).
Proof.
  revert hd. induction rows as [|r rows IH]; intros hd; [reflexivity|].
  cbn [fold_left]. rewrite IH, dict_get_add_hardware. reflexivity.
Qed.

Lemma indices_where_first (f : row -> bool) (pre : list row) (r : row)
    (post : list row) (i : nat) :
  forallb (fun x => negb (f x)) pre = true -> f r = true ->
  exists rest,
    indices_where f (pre ++ r :: post) i = (i + List.length pre)%nat :: rest.
Proof.
  revert i. induction pre as [|x pre IH]; intros i Hpre Hr.
  - cbn [app indices_where List.length]. rewrite Hr, Nat.add_0_r. eauto.
  - cbn [forallb] in Hpre. apply andb_true_iff in Hpre as [Hx Hpre].
    apply negb_true_iff in Hx. cbn [app indices_where List.length].
    rewrite Hx. destruct (IH (S i) Hpre Hr) as (rest & ->).
    exists rest. f_equal. lia.
Qed.

Lemma indices_where_none (f : row -> bool) (l : list row) (i : nat) :
  forallb (fun x => negb (f x)) l = true -> indices_where f l i = [].
Proof.
  revert i. induction l as [|x l IH]; intros i Hl; [reflexivity|].
  cbn [forallb] in Hl. apply andb_true_iff in Hl as [Hx Hl].
  apply negb_true_iff in Hx. cbn [indices_where]. rewrite Hx. now apply IH.
Qed.

(** X2: the fields of a door are kept under distinct names, all among
    the six recognised ones, each the extraction of its own raw text with
    nothing negative in it; the value of a field is the extraction of the
    last row of that name after the first "Hardware" row, the rows before
    it count for nothing; a block without a "Hardware" row has no
    fields. *)
Theorem hardware_block_fields :
  (forall block,
      NoDup (keys (hardware_of_block block))
      /\ forall k info, In (k, info) (hardware_of_block block) ->
           In k hardware_fields /\ well_formed_info info)
  /\ (forall pre r post k,
        forallb (fun x => negb (name_is "Hardware" x)) pre = true ->
        name_is "Hardware" r = true ->
        dict_get k (hardware_of_block (pre ++ r :: post))
        = last_field k post None)
  /\ (forall block,
        forallb (fun x => negb (name_is "Hardware" x)) block = true ->
        hardware_of_block block = []).
Proof.
  split; [|split].
  - intros block. destruct (hardware_of_block_ok block) as [Hnd Hin].
    split; [assumption|]. intros k info Hk.
    destruct (Hin _ _ Hk) as (Hf & t & ->).
    split; [assumption|apply extract_well_formed].
  - intros pre r post k Hpre Hr. unfold hardware_of_block.
    destruct (indices_where_first _ pre r post 0 Hpre Hr) as (rest & ->).
    replace (0 + List.length pre + 1)%nat with (List.length (pre ++ [r]))
      by (rewrite length_app; cbn; lia).
    replace (pre ++ r :: post) with ((pre ++ [r]) ++ post)
      by now rewrite <- app_assoc.
    rewrite skipn_app, skipn_all, Nat.sub_diag. cbn [app skipn].
    apply dict_get_fold_add_hardware.
  - intros block Hb. unfold hardware_of_block.
    now rewrite indices_where_none.
Qed.

(** ** The doors of the parse *)

Lemma last_write_step_In (k : text * Z * text) (rs : list (option entry))
    (start d : option door) :
  fold_left
    (fun acc r =>
       match r with
       | Some (p, s, n, d) => if key3_eqb (p, s, n) k then Some d else acc
       | None => acc
       end)
    rs start = d ->
  d = start
  \/ exists d', d = Some d' /\ In (Some (fst (fst k), snd (fst k), snd k, d')) rs.
Proof.
  revert start. induction rs as [|r rs IH]; intros start H; [now left|].
  cbn [fold_left] in H. apply IH in H as [H|(d' & -> & Hin)].
  - destruct r as [[[[p s] n] d0]|]; [|now left].
    destruct (key3_eqb (p, s, n) k) eqn:E; [|now left].
    apply key3_eqb_eq in E. subst k. right. exists d0.
    split; [assumption|now left].
  - right. exists d'. split; [reflexivity|now right].
Qed.

Lemma last_write_In (p : text) (s : Z) (n : text) (d : door)
    (rs : list (option entry)) :
  last_write (p, s, n) rs = Some d -> In (Some (p, s, n, d)) rs.
Proof.
  intros H. apply last_write_step_In in H as [H|(d' & [= ->] & Hin)];
    [discriminate|exact Hin].
Qed.

(** A door of the structure is the contribution of one of the
    sections. *)
Lemma entry_of_section (df : DataFrame) (ps : panels_t) (e : entry) :
  parse_door_config df = Ok ps -> In e (entries ps) ->
  exists se, In se (sections df) /\ section_result df se = Ok (Some e).
Proof.
  rewrite parse_door_config_ok. intros [= <-] He.
  destruct e as [[[p s] n] d].
  apply In_entries_lookup3 in He; [|apply wf_fold_insert, wf_panels_nil].
  rewrite lookup3_fold_insert in He. apply last_write_In in He.
  apply in_map_iff in He as (se & Hse & Hin). exists se.
  split; [assumption|]. now rewrite section_result_total, Hse.
Qed.

Lemma resolve_bounds (hd : dict text hw_info) (ks : list text) :
  (forall k info, In (k, info) hd -> well_formed_info info) ->
  let '(s, i) := resolve ks hd in
  (s = (-1)%Z /\ i = (-1)%Z /\ Forall (no_subpanel hd) ks)
  \/ ((0 <= s)%Z /\ (-1 <= i)%Z).
Proof.
  intros Hhd. induction ks as [|k ks IH]; cbn [resolve].
  - left. repeat split. constructor.
  - destruct (dict_get k hd) as [info|] eqn:Ek.
    + destruct (Hhd k info (dict_get_In _ _ Ek)) as (_ & Hsp & Had).
      destruct (subpanel info) as [sp|] eqn:Es.
      * right. split; [now apply Hsp|].
        destruct (address info) as [ad|]; [|lia].
        specialize (Had ad eq_refl). lia.
      * destruct (resolve ks hd) as [s i].
        destruct IH as [(-> & -> & Hall)|IH]; [left|now right].
        repeat split. constructor; [|assumption].
        unfold no_subpanel. now rewrite Ek.
    + destruct (resolve ks hd) as [s i].
      destruct IH as [(-> & -> & Hall)|IH]; [left|now right].
      repeat split. constructor; [|assumption].
      unfold no_subpanel. now rewrite Ek.
Qed.

(** X3: for every door of the parsed structure, either its subpanel and
    its index are both -1 and none of the five fields of the priority
    list has a subpanel, or its subpanel is at least 0 and its index at
    least -1 (-1 where the deciding field has no address); its fields are
    distinct, recognised, and each the extraction of its raw text with
    nothing negative in it. *)
Theorem parsed_door_bounds (df : DataFrame) (ps : panels_t)
    (p : text) (s : Z) (n : text) (d : door) :
  parse_door_config df = Ok ps -> In (p, s, n, d) (entries ps) ->
  ((s = (-1)%Z /\ door_index d = (-1)%Z
    /\ Forall (no_subpanel (hardware d)) priority)
   \/ ((0 <= s)%Z /\ (-1 <= door_index d)%Z))
  /\ NoDup (keys (hardware d))
  /\ (forall k info, In (k, info) (hardware d) ->
        In k hardware_fields /\ well_formed_info info).
Proof.
  intros Hps He.
  destruct (@entry_of_section df ps _ Hps He) as ([a b] & _ & Hres).
  apply section_result_inv in Hres as (_ & _ & _ & Hhw & Hr).
  destruct (hardware_of_block_ok (block_of df (a - 1) b)) as [Hnd Hin].
  rewrite <- Hhw in Hnd, Hin.
  assert (Hwf : forall k info, In (k, info) (hardware d) ->
                  In k hardware_fields /\ well_formed_info info).
  { intros k info Hk. destruct (Hin _ _ Hk) as (Hf & t & ->).
    split; [assumption|apply extract_well_formed]. }
  split; [|split; assumption].
  pose proof (@resolve_bounds (hardware d) priority) as Hb.
  rewrite <- Hr in Hb. apply Hb. intros k info Hk. now apply (Hwf k).
Qed.

(** ** Panels and subpanels of the parse *)

Lemma dict_set_not_nil {K V : Type} `{Key K} (k : K) (v : V) (d : dict K V) :
  dict_set k v d <> [].
Proof.
  destruct d as [|[k' v'] d]; cbn [dict_set]; [discriminate|].
  destruct (keqb k k'); discriminate.
Qed.

Lemma populated_insert_door (ps : panels_t) (p : text) (s : Z) (n : text)
    (d : door) :
  populated ps -> populated (insert_door p s n d ps).
Proof.
  intros Hps p0 pd0 H0. unfold insert_door in H0.
  apply In_dict_set in H0 as [[-> ->]|H0]; [|now apply (Hps p0)].
  split; [apply dict_set_not_nil|].
  intros s0 sd0 H1. apply In_dict_set in H1 as [[-> ->]|H1];
    [apply dict_set_not_nil|].
  apply get_or_empty_In in H1 as (pd & Hpd & H1).
  now apply (Hps p pd Hpd) in H1.
Qed.

Lemma populated_fold (rs : list (option entry)) (ps : panels_t) :
  populated ps -> populated (fold_left insert_entry rs ps).
Proof.
  revert ps. induction rs as [|r rs IH]; intros ps Hps; [assumption|].
  cbn [fold_left]. apply IH.
  destruct r as [[[[p s] n] d]|]; [now apply populated_insert_door|assumption].
Qed.

Lemma parse_populated (df : DataFrame) (ps : panels_t) :
  parse_door_config df = Ok ps -> populated ps.
Proof.
  rewrite parse_door_config_ok. intros [= <-].
  apply populated_fold. intros p pd [].
Qed.

Lemma length_nonempty_list {A : Type} (l : list A) :
  l <> [] -> (1 <= List.length l)%nat.
Proof. destruct l; cbn [List.length]; [congruence|lia]. Qed.

(** X4: the parser never leaves a panel without a subpanel or a subpanel
    without a door, so every parsed panel gets a figure. *)
Theorem parsed_panels_populated (df : DataFrame) (ps : panels_t)
    (p : text) (pd : panel_t) (show_lines : bool) :
  parse_door_config df = Ok ps -> In (p, pd) ps ->
  (1 <= List.length pd)%nat
  /\ (forall s sd, In (s, sd) pd -> (1 <= List.length sd)%nat)
  /\ exists fig, diagram p pd show_lines = Some fig.
Proof.
  intros Hps Hin. destruct (@parse_populated df ps Hps p pd Hin) as [Hpd Hsd].
  apply length_nonempty_list in Hpd.
  split; [assumption|]. split.
  - intros s sd Hs. now apply length_nonempty_list, (Hsd s).
  - unfold diagram. destruct (List.length pd =? 0)%nat eqn:E;
      [apply Nat.eqb_eq in E; lia|eauto].
Qed.

Lemma insert_door_not_nil (ps : panels_t) (p : text) (s : Z) (n : text)
    (d : door) : insert_door p s n d ps <> [].
Proof. apply dict_set_not_nil. Qed.

Lemma fold_insert_not_nil (rs : list (option entry)) (ps : panels_t) :
  ps <> [] -> fold_left insert_entry rs ps <> [].
Proof.
  revert ps. induction rs as [|r rs IH]; intros ps Hps; [assumption|].
  cbn [fold_left]. apply IH.
  destruct r as [[[[p s] n] d]|]; [apply insert_door_not_nil|assumption].
Qed.

Lemma fold_insert_nil (rs : list (option entry)) :
  fold_left insert_entry rs [] = [] <-> Forall (fun r => r = None) rs.
Proof.
  induction rs as [|r rs IH]; [split; [constructor|reflexivity]|].
  cbn [fold_left]. destruct r as [[[[p s] n] d]|]; cbn [insert_entry].
  - split.
    + intros H. exfalso. revert H. apply fold_insert_not_nil.
      apply insert_door_not_nil.
    + intros H. inversion H; discriminate.
  - rewrite IH. split; [now constructor|intros H; now inversion H].
Qed.

Lemma sections_nil (df : DataFrame) :
  forallb
    (fun r => negb (name_is "Configuration and Communication Settings" r)) df
  = true ->
  sections df = [].
Proof.
  intros H. unfold sections, cfg_indices. now rewrite indices_where_none.
Qed.

(** X5: the parse is the empty structure exactly when every section is
    skipped; a table without a sentinel row (the empty table too) gives
    it. *)
Theorem parse_empty_iff (df : DataFrame) :
  (parse_door_config df = Ok []
   <-> forall se, In se (sections df) -> outcome df se = None)
  /\ (forallb
        (fun r => negb (name_is "Configuration and Communication Settings" r))
        df = true ->
      parse_door_config df = Ok []).
Proof.
  assert (Hiff : parse_door_config df = Ok []
                 <-> forall se, In se (sections df) -> outcome df se = None).
  { rewrite parse_door_config_ok. split.
    - intros [= H]. apply fold_insert_nil in H.
      rewrite Forall_forall in H. intros se Hse. apply H.
      now apply in_map.
    - intros H. f_equal. apply fold_insert_nil. apply Forall_forall.
      intros r Hr. apply in_map_iff in Hr as (se & <- & Hse). now apply H. }
  split; [exact Hiff|].
  intros H. apply Hiff. rewrite (@sections_nil df H). intros se [].
Qed.

(** ** The sections of a table *)

Lemma indices_where_spec (f : row -> bool) (df : list row) (i j : nat) :
  In j (indices_where f df i)
  <-> (i <= j)%nat
      /\ exists r, nth_error df (j - i) = Some r /\ f r = true.
Proof.
  revert i. induction df as [|x df IH]; intros i; cbn [indices_where].
  - split; [intros []|]. intros (_ & r & Hr & _).
    now destruct (j - i)%nat.
  - assert (Hrec : In j (indices_where f df (S i))
                   <-> (i < j)%nat
                       /\ exists r, nth_error (x :: df) (j - i) = Some r
                                    /\ f r = true).
    { rewrite IH. split; intros (Hj & r & Hr & Hf); (split; [lia|]);
        exists r; (split; [|assumption]).
      - replace (j - i)%nat with (S (j - S i)) by lia. exact Hr.
      - replace (j - i)%nat with (S (j - S i)) in Hr by lia. exact Hr. }
    destruct (f x) eqn:Ex; cbn [In]; rewrite ?Hrec; split.
    + intros [<-|(Hj & H)]; [|split; [lia|exact H]].
      split; [lia|]. exists x. now rewrite Nat.sub_diag.
    + intros (Hj & r & Hr & Hf).
      destruct (Nat.eq_dec i j) as [->|Hne]; [now left|right].
      split; [lia|now exists r].
    + intros (Hj & H). split; [lia|exact H].
    + intros (Hj & r & Hr & Hf).
      destruct (Nat.eq_dec i j) as [->|Hne]; [|split; [lia|now exists r]].
      rewrite Nat.sub_diag in Hr. cbn in Hr. congruence.
Qed.

Lemma indices_where_sorted (f : row -> bool) (df : list row) (i : nat) :
  StronglySorted lt (indices_where f df i).
Proof.
  revert i. induction df as [|x df IH]; intros i; cbn [indices_where];
    [constructor|].
  destruct (f x); [|apply IH]. constructor; [apply IH|].
  apply Forall_forall. intros j Hj. apply in_indices_where in Hj. lia.
Qed.

Lemma cfg_indices_sorted (df : DataFrame) : StronglySorted lt (cfg_indices df).
Proof.
  unfold cfg_indices.
  generalize (indices_where_sorted
                (name_is "Configuration and Communication Settings") df 0).
  assert (Hlt : forall j,
             In j (indices_where
                     (name_is "Configuration and Communication Settings") df 0)
             -> (j < List.length df)%nat)
    by (intros j Hj; apply in_indices_where in Hj; lia).
  induction (indices_where _ df 0) as [|a l IH]; intros Hs; cbn [app].
  - repeat constructor.
  - inversion Hs as [|? ? Hl Ha]; subst. constructor.
    + apply IH; [|assumption]. intros j Hj. apply Hlt. now right.
    + apply Forall_app. split; [assumption|].
      constructor; [|constructor]. apply Hlt. now left.
Qed.

Lemma in_combine_tl_adjacent {A : Type} (l : list A) (s e : A) :
  In (s, e) (combine l (tl l)) -> exists l1 l2, l = l1 ++ s :: e :: l2.
Proof.
  induction l as [|a l IH]; [intros []|].
  destruct l as [|b l]; [intros []|]. cbn [tl combine In] in *.
  intros [[= <- <-]|Hin]; [now exists [], l|].
  apply IH in Hin as (l1 & l2 & ->). now exists (a :: l1), l2.
Qed.

Lemma sorted_adjacent (l1 l2 : list nat) (s e : nat) :
  StronglySorted lt (l1 ++ s :: e :: l2) ->
  (s < e)%nat
  /\ forall j, In j (l1 ++ s :: e :: l2) -> ~ (s < j < e)%nat.
Proof.
  intros Hs. induction l1 as [|a l1 IH]; cbn [app] in Hs.
  - inversion Hs as [|? ? Hl Ha]; subst.
    inversion Ha as [|? ? Hse Ha']; subst. split; [assumption|].
    inversion Hl as [|? ? _ He]; subst. rewrite Forall_forall in He.
    intros j [<-|[<-|Hj]]; [lia|lia|]. apply He in Hj. lia.
  - inversion Hs as [|? ? Hl Ha]; subst. destruct (IH Hl) as [Hse Hno].
    split; [assumption|]. rewrite Forall_forall in Ha.
    intros j [<-|Hj]; [|now apply Hno].
    assert (a < s)%nat by (apply Ha, in_or_app; right; now left). lia.
Qed.

Lemma combine_tl_fst {A : Type} (a : list A) (x : A) :
  map fst (combine (a ++ [x]) (tl (a ++ [x]))) = a.
Proof.
  induction a as [|y a IH]; [reflexivity|].
  destruct a as [|z a]; [reflexivity|].
  cbn [app tl combine map fst] in *. now rewrite IH.
Qed.

(** X6: the sections start at the sentinel rows, in the order of the
    table; a section ends after its start and inside the table, and holds
    no other sentinel row than its first. *)
Theorem sections_shape (df : DataFrame) :
  map fst (sections df)
  = indices_where (name_is "Configuration and Communication Settings") df 0
  /\ forall s e, In (s, e) (sections df) ->
       (s < e <= List.length df)%nat
       /\ (exists r,
             nth_error df s = Some r
             /\ name_is "Configuration and Communication Settings" r = true)
       /\ (forall j r,
             (s < j < e)%nat -> nth_error df j = Some r ->
             name_is "Configuration and Communication Settings" r = false).
Proof.
  split; [apply combine_tl_fst|].
  intros s e Hin.
  assert (Hs : In s (indices_where
                       (name_is "Configuration and Communication Settings")
                       df 0))
    by (eapply in_combine_tl; exact Hin).
  apply in_combine_tl_adjacent in Hin as (l1 & l2 & Hl).
  pose proof (cfg_indices_sorted df) as Hsorted. rewrite Hl in Hsorted.
  destruct (@sorted_adjacent l1 l2 s e Hsorted) as [Hse Hno].
  assert (He : In e (cfg_indices df))
    by (rewrite Hl; apply in_or_app; right; right; now left).
  split; [|split].
  - split; [assumption|]. unfold cfg_indices in He.
    apply in_app_or in He as [He|[<-|[]]]; [|lia].
    apply in_indices_where in He. lia.
  - apply indices_where_spec in Hs as (_ & r & Hr & Hf).
    rewrite Nat.sub_0_r in Hr. now exists r.
  - intros j r Hj Hr.
    destruct (name_is "Configuration and Communication Settings" r) eqn:E;
      [|reflexivity].
    exfalso. apply (Hno j); [|assumption]. rewrite <- Hl.
    unfold cfg_indices. apply in_or_app. left.
    apply indices_where_spec. split; [lia|]. exists r.
    now rewrite Nat.sub_0_r.
Qed.

(** ** The order and the names of the panels *)

Lemma dict_get_existsb {V : Type} (k : text) (d : dict text V) :
  existsb (text_eqb k) (keys d)
  = match dict_get k d with Some _ => true | None => false end.
Proof.
  induction d as [|[k' v] d IH]; [reflexivity|].
  cbn [keys map fst existsb dict_get]. change (keqb k k') with (text_eqb k k').
  destruct (text_eqb k k'); [reflexivity|exact IH].
Qed.

Lemma keys_insert_door (ps : panels_t) (p : text) (s : Z) (n : text)
    (d : door) :
  keys (insert_door p s n d ps) = first_seen [p] (keys ps).
Proof.
  unfold insert_door, first_seen. cbn [fold_left].
  rewrite keys_dict_set, dict_get_existsb.
  now destruct (dict_get p ps).
Qed.

Lemma keys_fold_insert (rs : list (option entry)) (ps : panels_t) :
  keys (fold_left insert_entry rs ps)
  = first_seen (map panel_of (written rs)) (keys ps).
Proof.
  revert ps. induction rs as [|r rs IH]; intros ps; [reflexivity|].
  cbn [fold_left]. rewrite IH.
  destruct r as [[[[p s] n] d]|]; [|reflexivity].
  cbn [insert_entry written flat_map app map panel_of fst].
  now rewrite keys_insert_door.
Qed.

(** X7: the panels of the parsed structure stand in the order in which
    their names are first met among the sections, each once. *)
Theorem panels_in_order_of_appearance (df : DataFrame) :
  exists ps,
    parse_door_config df = Ok ps
    /\ keys ps
       = first_seen (map panel_of (written (map (outcome df) (sections df)))) []
    /\ NoDup (keys ps).
Proof.
  eexists. split; [apply parse_door_config_ok|].
  split; [apply keys_fold_insert|].
  now apply wf_fold_insert, wf_panels_nil.
Qed.

Lemma first_seen_In (names start : list text) (p : text) :
  In p (first_seen names start) -> In p start \/ In p names.
Proof.
  revert start. induction names as [|a names IH]; intros start;
    [now left|].
  unfold first_seen in *. cbn [fold_left]. intros H. apply IH in H.
  destruct H as [H|H]; [|right; now right].
  destruct (existsb (text_eqb a) start); [now left|].
  apply in_app_or in H as [H|[<-|[]]]; [now left|right; now left].
Qed.

(** X8: a panel name of the parsed structure has no blank at either end:
    stripping it again changes nothing. *)
Theorem panel_names_stripped (df : DataFrame) (ps : panels_t) (p : text) :
  parse_door_config df = Ok ps -> In p (keys ps) ->
  strip p = p
  /\ match p with c :: _ => is_space c = false | [] => True end
  /\ match rev p with c :: _ => is_space c = false | [] => True end.
Proof.
  rewrite parse_door_config_ok. intros [= <-] Hp.
  rewrite keys_fold_insert in Hp. apply first_seen_In in Hp as [[]|Hp].
  apply in_map_iff in Hp as ([[[p0 s] n] d] & <- & He). cbn [panel_of fst].
  apply in_flat_map in He as (r & Hr & He).
  destruct r as [e|]; [|destruct He]. destruct He as [->|[]].
  apply in_map_iff in Hr as ([a b] & Ho & Hse).
  assert (Hres : section_result df (a, b) = Ok (Some (p0, s, n, d)))
    by now rewrite section_result_total, Ho.
  apply section_result_inv in Hres as (_ & _ & (prow & rest & _ & ->) & _).
  split; [apply strip_idem|apply strip_ends].
Qed.

(** ** The stack of doors *)

(** Box [j] of a stack has its top [j] shares under the top of the
    first. *)
Lemma door_rects_nth (n i m k j : nat) (y : Q) :
  (j < k)%nat ->
  exists b,
    nth_error (door_rects n i m y k) j = Some b
    /\ ry b + rh b == y + door_height m / 2 - Qnat j * door_share m
    /\ rh b == door_height m
    /\ rx b = rx (door_rect n i m y) /\ rw b = rw (door_rect n i m y).
Proof.
  revert y j. induction k as [|k IH]; intros y j Hj; [lia|].
  destruct j as [|j]; cbn [door_rects nth_error].
  - eexists. split; [reflexivity|]. cbn [door_rect ry rh].
    split; [change (Qnat 0) with 0; qnorm; lra|].
    split; [reflexivity|]. split; reflexivity.
  - destruct (IH (y - (door_height m + door_spacing m)) j) as
      (b & Hb & Htop & Hh & Hx & Hw); [lia|].
    exists b. split; [exact Hb|].
    split; [|split; [assumption|split; assumption]].
    rewrite Htop, Qnat_succ. pose proof (door_pitch m). qnorm. lra.
Qed.

Lemma draw_subpanel_outlines (show_lines : bool) (subpanels : panel_t)
    (n i : nat) (sp : Z) :
  outlines (draw_subpanel show_lines subpanels n i sp)
  = map (grow box_pad) (boxes (draw_subpanel show_lines subpanels n i sp)).
Proof. apply outlines_grow, draw_subpanel_pads. Qed.

(** The share of one door among at most four is above 0.1, among five or
    more at most 0.1. *)
Lemma door_share_few (m : nat) :
  (1 <= m)%nat -> (m <= 4)%nat -> 0.1 < door_share m.
Proof.
  intros Hm H4. pose proof (door_shares_fill Hm) as Hf.
  pose proof (door_share_pos Hm) as Hpos.
  assert (Hle : Qnat m * door_share m <= 4 * door_share m).
  { apply Qmult_le_compat_r; [|lra].
    change 4 with (Qnat 4). apply Qnat_le. lia. }
  rewrite Hf in Hle.
  unfold door_region_height, door_region_top, door_region_bottom in Hle. lra.
Qed.

Lemma door_share_many (m : nat) : (5 <= m)%nat -> door_share m <= 0.1.
Proof.
  intros H5. assert (Hm : (1 <= m)%nat) by lia.
  pose proof (door_shares_fill Hm) as Hf.
  pose proof (door_share_pos Hm) as Hpos.
  assert (Hle : 5 * door_share m <= Qnat m * door_share m).
  { apply Qmult_le_compat_r; [|lra].
    change 5 with (Qnat 5). apply Qnat_le. lia. }
  rewrite Hf in Hle.
  unfold door_region_height, door_region_top, door_region_bottom in Hle. lra.
Qed.

(** X9: the rectangle of door [j] (from 0) of a subpanel with [m] doors
    has its top [j] shares under 0.6 and is 80% of a share high; its
    bottom less the spacing is the top of the next share; it stays above
    0.1.  The box as drawn is the rectangle grown by the padding 0.02:
    its bottom is 0.02 lower and its top 0.02 higher; it stays above
    0.08, above 0.1 for at most four doors, and the last of five or more
    doors reaches 0.1 or under it. *)
Theorem door_stack_positions (show_lines : bool) (subpanels : panel_t)
    (n i : nat) (sp : Z) (j : nat) :
  let m := List.length (get_or_empty sp subpanels) in
  (j < m)%nat ->
  exists b,
    nth_error (boxes (draw_subpanel show_lines subpanels n i sp)) (S j)
    = Some b
    /\ ry b + rh b == door_region_top - Qnat j * door_share m
    /\ ry b == door_region_top - Qnat j * door_share m - 0.8 * door_share m
    /\ ry b - door_spacing m
       == door_region_top - Qnat (S j) * door_share m
    /\ door_region_bottom < ry b
    /\ nth_error (outlines (draw_subpanel show_lines subpanels n i sp)) (S j)
       = Some (grow box_pad b)
    /\ ry (grow box_pad b) == ry b - 0.02
    /\ ry (grow box_pad b) + rh (grow box_pad b) == ry b + rh b + 0.02
    /\ door_region_bottom - 0.02 < ry (grow box_pad b)
    /\ ((m <= 4)%nat -> door_region_bottom < ry (grow box_pad b))
    /\ ((5 <= m)%nat -> S j = m -> ry (grow box_pad b) <= door_region_bottom).
Proof.
  intros m Hj. rewrite draw_subpanel_outlines, draw_subpanel_boxes. fold m.
  cbn [nth_error map].
  destruct (@door_rects_nth n i m m j
              (door_region_top - door_height m / 2) Hj)
    as (b & Hb & Htop & Hh & _).
  exists b. split; [exact Hb|].
  assert (Hm : (1 <= m)%nat) by lia.
  pose proof (door_height_share m) as Hhs.
  pose proof (door_spacing_share m) as Hss.
  pose proof (door_share_pos Hm) as Hpos.
  assert (Htop' : ry b + rh b == door_region_top - Qnat j * door_share m)
    by (rewrite Htop; qnorm; lra).
  assert (Hle : Qnat (S j) * door_share m <= Qnat m * door_share m).
  { apply Qmult_le_compat_r; [apply Qnat_le; lia|lra]. }
  rewrite door_shares_fill in Hle by assumption.
  rewrite Qnat_succ in Hle.
  assert (Hry : ry (grow box_pad b) == ry b - 0.02)
    by (unfold grow, box_pad; cbn [ry]; lra).
  assert (Hrt : ry (grow box_pad b) + rh (grow box_pad b)
                == ry b + rh b + 0.02)
    by (unfold grow, box_pad; cbn [ry rh]; lra).
  split; [exact Htop'|]. split; [lra|].
  split; [rewrite Qnat_succ; lra|].
  split; [unfold door_region_height, door_region_top, door_region_bottom in *; lra|].
  split; [now rewrite (map_nth_error _ _ _ Hb)|].
  split; [exact Hry|]. split; [exact Hrt|].
  split; [unfold door_region_height, door_region_top, door_region_bottom in *; lra|].
  split.
  - intros H4. pose proof (door_share_few Hm H4).
    unfold door_region_height, door_region_top, door_region_bottom in *. lra.
  - intros H5 Hlast. pose proof (door_share_many H5) as Hmany.
    assert (Hfill : Qnat (S j) * door_share m
                    == door_region_top - door_region_bottom)
      by (rewrite Hlast; now apply door_shares_fill).
    rewrite Qnat_succ in Hfill.
    unfold door_region_height, door_region_top, door_region_bottom in *. lra.
Qed.

(** ** Lines, texts and boxes *)

Lemma texts_app (l l' : list artist) : texts (l ++ l') = texts l ++ texts l'.
Proof. apply flat_map_app. Qed.

Lemma connectors_app (l l' : list artist) :
  connectors (l ++ l') = connectors l ++ connectors l'.
Proof. apply flat_map_app. Qed.

Lemma text_points_app (l l' : list artist) :
  text_points (l ++ l') = text_points l ++ text_points l'.
Proof. apply flat_map_app. Qed.

Lemma draw_doors_connectors (show_lines : bool) (n i m : nat) (y : Q)
    (items : list (text * door)) :
  List.length (connectors (draw_doors show_lines n i m y items))
  = if show_lines then List.length items else 0%nat.
Proof.
  revert y. induction items as [|[name d] items IH]; intros y;
    [now destruct show_lines|].
  cbn [draw_doors]. rewrite !connectors_app, !length_app, IH.
  now destruct show_lines.
Qed.

Lemma draw_subpanel_texts (show_lines : bool) (subpanels : panel_t)
    (n i : nat) (sp : Z) :
  texts (draw_subpanel show_lines subpanels n i sp)
  = sp_label sp
    :: map (fun kv => label (fst kv) (snd kv))
         (door_items (get_or_empty sp subpanels)).
Proof.
  unfold draw_subpanel. rewrite !texts_app.
  destruct (List.length (get_or_empty sp subpanels) =? 0)%nat eqn:E.
  - apply Nat.eqb_eq in E.
    destruct (get_or_empty sp subpanels); [|discriminate].
    now destruct show_lines.
  - rewrite draw_doors_texts. now destruct show_lines.
Qed.

Lemma draw_subpanel_connectors (show_lines : bool) (subpanels : panel_t)
    (n i : nat) (sp : Z) :
  List.length (connectors (draw_subpanel show_lines subpanels n i sp))
  = if show_lines
    then List.length (boxes (draw_subpanel show_lines subpanels n i sp))
    else 0%nat.
Proof.
  rewrite draw_subpanel_boxes. unfold draw_subpanel.
  rewrite !connectors_app, !length_app.
  assert (Hlen : List.length (door_items (get_or_empty sp subpanels))
                 = List.length (get_or_empty sp subpanels))
    by apply Permutation_length, sorted_by_perm.
  assert (Hrects : forall m y k, List.length (door_rects n i m y k) = k).
  { intros m y k. revert y. induction k as [|k IH]; intros y; [reflexivity|].
    cbn [door_rects List.length]. now rewrite IH. }
  cbn [List.length]. rewrite Hrects.
  destruct (List.length (get_or_empty sp subpanels) =? 0)%nat eqn:E.
  - apply Nat.eqb_eq in E. rewrite E. now destruct show_lines.
  - rewrite draw_doors_connectors, Hlen. now destruct show_lines.
Qed.

Lemma draw_subpanels_show (subpanels : panel_t) (n : nat) (ks : list Z)
    (i : nat) :
  boxes (draw_subpanels true subpanels n i ks)
  = boxes (draw_subpanels false subpanels n i ks)
  /\ texts (draw_subpanels true subpanels n i ks)
     = texts (draw_subpanels false subpanels n i ks)
  /\ connectors (draw_subpanels false subpanels n i ks) = []
  /\ List.length (connectors (draw_subpanels true subpanels n i ks))
     = List.length (boxes (draw_subpanels true subpanels n i ks)).
Proof.
  revert i. induction ks as [|sp ks IH]; intros i; [now repeat split|].
  destruct (IH (S i)) as (Hb & Ht & Hc & Hn). cbn [draw_subpanels].
  pose proof (draw_subpanel_connectors false subpanels n i sp) as H0.
  pose proof (draw_subpanel_connectors true subpanels n i sp) as H1.
  cbv iota in H0, H1. apply length_zero_iff_nil in H0.
  rewrite !boxes_app, !texts_app, !connectors_app, !length_app.
  split; [now rewrite !draw_subpanel_boxes, Hb|].
  split; [now rewrite !draw_subpanel_texts, Ht|].
  split; [now rewrite H0, Hc|].
  now rewrite H1, Hn.
Qed.

(** X10: drawing with connector lines changes neither the size of the
    figure nor its boxes nor its texts; without them there is no line,
    with them there is one line for every box but the panel's. *)
Theorem show_lines_adds_connectors_only (panel_name : text)
    (subpanels : panel_t) :
  (1 <= List.length subpanels)%nat ->
  exists with_lines without,
    diagram panel_name subpanels true = Some with_lines
    /\ diagram panel_name subpanels false = Some without
    /\ figsize with_lines = figsize without
    /\ boxes (artists with_lines) = boxes (artists without)
    /\ texts (artists with_lines) = texts (artists without)
    /\ connectors (artists without) = []
    /\ S (List.length (connectors (artists with_lines)))
       = List.length (boxes (artists with_lines)).
Proof.
  intros Hn. unfold diagram.
  destruct (List.length subpanels =? 0)%nat eqn:E;
    [apply Nat.eqb_eq in E; lia|].
  eexists _, _. split; [reflexivity|]. split; [reflexivity|].
  cbn [figsize artists].
  destruct (draw_subpanels_show subpanels (List.length subpanels)
              (sorted_by (fun sp => sp) (keys subpanels)) 0)
    as (Hb & Ht & Hc & Hl).
  rewrite !boxes_app, !texts_app, !connectors_app, Hb, Ht, Hc.
  split; [reflexivity|]. split; [reflexivity|]. split; [reflexivity|].
  split; [reflexivity|]. cbn [connectors boxes flat_map app List.length].
  now rewrite Hl, Hb.
Qed.

(** ** Texts in the middle of their boxes *)

Lemma door_rect_centre (n i m : nat) (y : Q) :
  same_point (sub_x_center n i, y) (centre (door_rect n i m y)).
Proof.
  unfold same_point, centre, door_rect. cbn [fst snd rx ry rw rh].
  split; qnorm; lra.
Qed.

Lemma sub_rect_centre (n i : nat) :
  same_point (sub_x_center n i, sub_y) (centre (sub_rect n i)).
Proof.
  unfold same_point, centre, sub_rect. cbn [fst snd rx ry rw rh].
  split; qnorm; lra.
Qed.

Lemma panel_rect_centre : same_point (panel_x, panel_y) (centre panel_rect).
Proof.
  unfold same_point, centre, panel_rect. cbn [fst snd rx ry rw rh].
  split; qnorm; lra.
Qed.

Lemma draw_doors_centred (show_lines : bool) (n i m : nat) (y : Q)
    (items : list (text * door)) :
  Forall2 same_point
    (text_points (draw_doors show_lines n i m y items))
    (map centre (boxes (draw_doors show_lines n i m y items))).
Proof.
  revert y. induction items as [|[name d] items IH]; intros y;
    [constructor|].
  cbn [draw_doors]. rewrite !text_points_app, !boxes_app, !map_app.
  apply Forall2_app; [now destruct show_lines; constructor|].
  apply Forall2_app; [|apply IH].
  constructor; [apply door_rect_centre|constructor].
Qed.

Lemma draw_subpanel_centred (show_lines : bool) (subpanels : panel_t)
    (n i : nat) (sp : Z) :
  Forall2 same_point
    (text_points (draw_subpanel show_lines subpanels n i sp))
    (map centre (boxes (draw_subpanel show_lines subpanels n i sp))).
Proof.
  unfold draw_subpanel. rewrite !text_points_app, !boxes_app, !map_app.
  apply Forall2_app; [now destruct show_lines; constructor|].
  apply Forall2_app; [constructor; [apply sub_rect_centre|constructor]|].
  destruct (List.length (get_or_empty sp subpanels) =? 0)%nat;
    [constructor|apply draw_doors_centred].
Qed.

Lemma draw_subpanels_centred (show_lines : bool) (subpanels : panel_t)
    (n : nat) (ks : list Z) (i : nat) :
  Forall2 same_point
    (text_points (draw_subpanels show_lines subpanels n i ks))
    (map centre (boxes (draw_subpanels show_lines subpanels n i ks))).
Proof.
  revert i. induction ks as [|sp ks IH]; intros i; [constructor|].
  cbn [draw_subpanels]. rewrite text_points_app, boxes_app, map_app.
  apply Forall2_app; [apply draw_subpanel_centred|apply IH].
Qed.

Lemma diagram_artists (panel_name : text) (subpanels : panel_t)
    (show_lines : bool) (fig : figure) :
  diagram panel_name subpanels show_lines = Some fig ->
  (1 <= List.length subpanels)%nat
  /\ artists fig
     = [Patch panel_rect box_pad Black;
        Text panel_x panel_y (str "Panel" ++ newline ++ panel_name)]
       ++ draw_subpanels show_lines subpanels (List.length subpanels) 0
            (sorted_by (fun sp => sp) (keys subpanels)).
Proof.
  unfold diagram. destruct (List.length subpanels =? 0)%nat eqn:E;
    [discriminate|].
  apply Nat.eqb_neq in E. intros [= <-]. split; [lia|reflexivity].
Qed.

Lemma texts_length (l : list artist) :
  List.length (texts l) = List.length (text_points l).
Proof.
  unfold texts, text_points. induction l as [|a l IH]; [reflexivity|].
  cbn [flat_map]. rewrite !length_app, IH. now destruct a.
Qed.

Lemma diagram_centred (panel_name : text) (subpanels : panel_t)
    (show_lines : bool) (fig : figure) :
  diagram panel_name subpanels show_lines = Some fig ->
  Forall2 same_point (text_points (artists fig))
    (map centre (boxes (artists fig))).
Proof.
  intros Hfig. apply diagram_artists in Hfig as [_ ->].
  rewrite text_points_app, boxes_app, map_app.
  apply Forall2_app; [|apply draw_subpanels_centred].
  constructor; [apply panel_rect_centre|constructor].
Qed.

(** X11: every text of a figure is placed at the centre of its box, and
    there is one text for every box. *)
Theorem texts_centred_in_boxes (panel_name : text) (subpanels : panel_t)
    (show_lines : bool) (fig : figure) :
  diagram panel_name subpanels show_lines = Some fig ->
  Forall2 same_point (text_points (artists fig))
    (map centre (boxes (artists fig)))
  /\ List.length (texts (artists fig)) = List.length (boxes (artists fig)).
Proof.
  intros Hfig. pose proof (diagram_centred _ _ _ Hfig) as H.
  split; [exact H|].
  rewrite texts_length. apply Forall2_length in H.
  now rewrite length_map in H.
Qed.

(** ** Connector lines *)







(** ** One box for every subpanel and every door *)

Lemma list_sum_perm (l l' : list nat) :
  Permutation l l' -> list_sum l = list_sum l'.
Proof. induction 1; simpl; lia. Qed.

Lemma door_rects_length (n i m k : nat) (y : Q) :
  List.length (door_rects n i m y k) = k.
Proof.
  revert y. induction k as [|k IH]; intros y; [reflexivity|].
  cbn [door_rects List.length]. now rewrite IH.
Qed.

Lemma draw_subpanels_box_count (show_lines : bool) (subpanels : panel_t)
    (n : nat) (ks : list Z) (i : nat) :
  List.length (boxes (draw_subpanels show_lines subpanels n i ks))
  = (List.length ks
     + list_sum (map (fun k => List.length (get_or_empty k subpanels)) ks))%nat.
Proof.
  revert i. induction ks as [|sp ks IH]; intros i; [reflexivity|].
  cbn [draw_subpanels]. rewrite boxes_app, length_app, IH.
  rewrite draw_subpanel_boxes. cbn [List.length map].
  rewrite door_rects_length.
  change (list_sum (?a :: ?l)) with (a + list_sum l)%nat. lia.
Qed.

Lemma door_count_sum (subpanels : panel_t) :
  NoDup (keys subpanels) ->
  list_sum (map (fun k => List.length (get_or_empty k subpanels))
              (keys subpanels))
  = door_count subpanels.
Proof.
  intros Hnd. unfold keys. rewrite map_map.
  rewrite (map_ext_in _ (fun kv : Z * subpanel_t => List.length (snd kv))).
  - induction subpanels as [|kv l IH]; [reflexivity|].
    cbn [map door_count fold_right].
    change (list_sum (?a :: ?l)) with (a + list_sum l)%nat.
    f_equal. apply IH.
    now inversion Hnd.
  - intros [k v] Hin. unfold get_or_empty.
    now rewrite (In_dict_get _ _ _ Hnd Hin).
Qed.

(** X13: for a panel with distinct subpanel numbers, the figure has one
    box and one text for the panel, for every subpanel and for every
    door. *)
Theorem one_box_per_subpanel_and_door (panel_name : text)
    (subpanels : panel_t) (show_lines : bool) (fig : figure) :
  NoDup (keys subpanels) ->
  diagram panel_name subpanels show_lines = Some fig ->
  List.length (boxes (artists fig))
  = (1 + List.length subpanels + door_count subpanels)%nat
  /\ List.length (texts (artists fig))
     = (1 + List.length subpanels + door_count subpanels)%nat.
Proof.
  intros Hnd Hfig.
  assert (Hb : List.length (boxes (artists fig))
               = (1 + List.length subpanels + door_count subpanels)%nat).
  { apply diagram_artists in Hfig as [_ ->].
    rewrite boxes_app, length_app, draw_subpanels_box_count.
    pose proof (sorted_by_perm (fun sp : Z => sp) (keys subpanels)) as Hp.
    rewrite (Permutation_length Hp).
    rewrite (list_sum_perm (Permutation_map _ Hp)), door_count_sum
      by assumption.
    unfold keys. rewrite length_map. reflexivity. }
  split; [exact Hb|].
  rewrite texts_length.
  pose proof (diagram_centred _ _ _ Hfig) as H.
  apply Forall2_length in H. rewrite length_map in H. congruence.
Qed.

(** ** Subpanels from left to right *)






(** ** File names *)

Lemma replace_from_char (a b : ascii) (s : text) :
  replace_from [a] [b] 0 s
  = map (fun c => if Ascii.eqb a c then b else c) s.
Proof.
  induction s as [|c s IH]; [reflexivity|].
  cbn [replace_from is_prefix List.length Nat.sub map app].
  rewrite andb_true_r, IH. now destruct (Ascii.eqb a c).
Qed.

Lemma safe_name_map (p : text) :
  safe_name p = map (fun c => if Ascii.eqb " " c then "_"%char else c) p.
Proof. apply replace_from_char. Qed.

(** X15: the file name of a panel has no space and the length of the
    panel name; a name without spaces is kept; replacing again changes
    nothing; the replacement goes through concatenation. *)
Theorem safe_name_no_space (p : text) :
  ~ In " "%char (safe_name p)
  /\ List.length (safe_name p) = List.length p
  /\ (~ In " "%char p -> safe_name p = p)
  /\ safe_name (safe_name p) = safe_name p
  /\ (forall q, safe_name (p ++ q) = safe_name p ++ safe_name q).
Proof.
  rewrite !safe_name_map.
  assert (Hno : forall l,
             ~ In " "%char
                 (map (fun c => if Ascii.eqb " " c then "_"%char else c) l)).
  { intros l H. apply in_map_iff in H as (c & Hc & _).
    destruct (Ascii.eqb " " c) eqn:E; [discriminate|].
    subst c. discriminate. }
  assert (Hid : forall l, ~ In " "%char l ->
             map (fun c => if Ascii.eqb " " c then "_"%char else c) l = l).
  { intros l Hl. rewrite <- (map_id l) at 2. apply map_ext_in.
    intros c Hc. destruct (Ascii.eqb " " c) eqn:E; [|reflexivity].
    apply Ascii.eqb_eq in E. subst c. contradiction. }
  split; [apply Hno|]. split; [apply length_map|]. split; [apply Hid|].
  split; [apply Hid, Hno|].
  intros q. now rewrite !safe_name_map, map_app.
Qed.

(** ** The files written *)

Section GeneratorFacts.
Variable path_join : text -> text -> text.
Variable sys : file_system.















End GeneratorFacts.

(** ** The further properties on the samples *)

Lemma hardware_block_fields_witness :
  dict_get (str "Reader")
    (hardware_of_block
       ([bare_row "Door C"; sentinel_row; data_row "Panel" " Gym "]
        ++ bare_row "Hardware"
           :: [data_row "Strike" "Relay (Subpanel:1 Output:2)";
               data_row "Reader" "Onboard reader"; bare_row "Door D"]))
  = last_field (str "Reader")
      [data_row "Strike" "Relay (Subpanel:1 Output:2)";
       data_row "Reader" "Onboard reader"; bare_row "Door D"] None.
Proof.
  destruct hardware_block_fields as (_ & Hlast & _).
  apply Hlast; reflexivity.
Defined.

Lemma parsed_door_bounds_witness :
  exists ps,
    parse_door_config sample_table = Ok ps
    /\ In (str "Gym", 1%Z, str "Door D", sample_door_D) (entries ps)
    /\ NoDup (keys (hardware sample_door_D)).
Proof.
  eexists. split; [reflexivity|].
  split; [right; left; reflexivity|].
  apply (@parsed_door_bounds sample_table _ (str "Gym") 1%Z (str "Door D")
           sample_door_D eq_refl).
  right. left. reflexivity.
Defined.

Lemma parsed_panels_populated_witness :
  exists ps pd,
    parse_door_config sample_table = Ok ps
    /\ In (str "Gym", pd) ps
    /\ (1 <= List.length pd)%nat.
Proof.
  eexists _, _. split; [reflexivity|].
  split; [left; reflexivity|].
  apply (@parsed_panels_populated sample_table _ (str "Gym") _ true eq_refl).
  left. reflexivity.
Defined.

Lemma panel_names_stripped_witness : strip (str "Gym") = str "Gym".
Proof.
  apply (@panel_names_stripped sample_table _ (str "Gym") eq_refl).
  left. reflexivity.
Defined.

Lemma door_stack_positions_witness :
  exists b,
    nth_error (boxes (draw_subpanel true sample_panel 2 1 3%Z)) 3 = Some b
    /\ door_region_bottom < ry b
    /\ nth_error (outlines (draw_subpanel true sample_panel 2 1 3%Z)) 3
       = Some (grow box_pad b).
Proof.
  destruct (@door_stack_positions true sample_panel 2 1 3%Z 2)
    as (b & Hb & _ & _ & _ & Hlow & Hout & _); [cbn; lia|].
  exists b. split; [exact Hb|]. split; [exact Hlow|exact Hout].
Defined.

Lemma show_lines_adds_connectors_only_witness :
  exists with_lines without,
    diagram (str "Gym") sample_panel true = Some with_lines
    /\ diagram (str "Gym") sample_panel false = Some without
    /\ boxes (artists with_lines) = boxes (artists without)
    /\ connectors (artists without) = [].
Proof.
  destruct (@show_lines_adds_connectors_only (str "Gym") sample_panel)
    as (f1 & f0 & H1 & H0 & _ & Hb & _ & Hc & _); [cbn; lia|].
  exists f1, f0. repeat split; assumption.
Defined.

Lemma texts_centred_in_boxes_witness :
  exists fig,
    diagram (str "Gym") sample_panel false = Some fig
    /\ List.length (texts (artists fig)) = List.length (boxes (artists fig)).
Proof.
  eexists. split; [reflexivity|].
  apply (@texts_centred_in_boxes (str "Gym") sample_panel false _ eq_refl).
Defined.


Lemma one_box_per_subpanel_and_door_witness :
  exists fig,
    diagram (str "Gym") sample_panel false = Some fig
    /\ List.length (boxes (artists fig)) = 9%nat.
Proof.
  eexists. split; [reflexivity|].
  apply (@one_box_per_subpanel_and_door (str "Gym") sample_panel false _);
    [|reflexivity].
  repeat constructor; cbn; intuition discriminate.
Defined.




(** A panel name with a "/" stops [main] at the write of its file:
    nothing is written and nothing printed. *)
Example run_stops_at_refused_write :
  run posix_join (flat_dir (str "out")) slash_table (str "in.csv")
    (str "out") false []
  = mk_trace [] [] (Some OSError).
Proof. reflexivity. Qed.

(** ** The size of a label and of a figure *)

Lemma label_lines_as_spec (door_name : text) (d : door) :
  label_lines door_name d = spec_label_lines door_name d.
Proof.
  unfold label_lines, spec_label_lines.
  rewrite (fold_hardware_line _ _ priority_short), Z.gtb_ltb.
  unfold priority. now destruct (0 <? door_index d)%Z.
Qed.

Lemma spec_kind_line_short (hw : dict text hw_info) (k : text) :
  (List.length (spec_kind_line hw k) <= 1)%nat.
Proof.
  unfold spec_kind_line. destruct (dict_get k hw) as [info|]; [|cbn; lia].
  destruct (address info) as [a|]; [|cbn; lia].
  destruct (0 <? a)%Z; cbn; lia.
Qed.

(** X19: a label starts with the name of the door and has at most six
    further lines; a door whose index is not above 0 and whose fields
    have no address above 0 is labelled with its name alone. *)
Theorem label_lines_bounds (door_name : text) (d : door) :
  (exists rest,
      label_lines door_name d = door_name :: rest
      /\ (List.length rest <= 6)%nat)
  /\ ((door_index d <= 0)%Z ->
      (forall k info, In (k, info) (hardware d) ->
         forall a, address info = Some a -> (a <= 0)%Z) ->
      label door_name d = door_name).
Proof.
  rewrite label_lines_as_spec. unfold label. rewrite label_lines_as_spec.
  unfold spec_label_lines. split.
  - eexists. split; [reflexivity|]. cbn [flat_map].
    rewrite !length_app.
    pose proof (spec_kind_line_short (hardware d) (str "Reader")).
    pose proof (spec_kind_line_short (hardware d) (str "Door Position")).
    pose proof (spec_kind_line_short (hardware d) (str "Strike")).
    pose proof (spec_kind_line_short (hardware d) (str "Rex #1")).
    pose proof (spec_kind_line_short (hardware d) (str "Rex #2")).
    destruct (0 <? door_index d)%Z; cbn [List.length]; lia.
  - intros Hidx Haddr.
    assert (Hi : (0 <? door_index d)%Z = false) by (apply Z.ltb_ge; lia).
    assert (Hk : forall k, spec_kind_line (hardware d) k = []).
    { intros k. unfold spec_kind_line.
      destruct (dict_get k (hardware d)) as [info|] eqn:Ek; [|reflexivity].
      destruct (address info) as [a|] eqn:Ea; [|reflexivity].
      apply dict_get_In in Ek.
      assert (Ha : (0 <? a)%Z = false)
        by (apply Z.ltb_ge; now apply (Haddr k info)).
      now rewrite Ha. }
    rewrite Hi. cbn [flat_map]. rewrite !Hk. reflexivity.
Qed.

Lemma label_lines_bounds_witness :
  label (str "Door X")
    (mk_door 0 [(str "Reader", mk_hw (Some 0%Z) (Some 0%Z) [])])
  = str "Door X".
Proof.
  apply label_lines_bounds; [cbn; lia|].
  intros k info [[= <- <-]|[]] a [= <-]. lia.
Defined.

Lemma qmax_bounds (a b : Q) : a <= qmax a b /\ b <= qmax a b.
Proof.
  unfold qmax. destruct (Qle_bool a b) eqn:E.
  - apply Qle_bool_iff in E. split; [assumption|apply Qle_refl].
  - split; [apply Qle_refl|].
    destruct (Qlt_le_dec a b) as [Hlt|Hle]; [|assumption].
    apply Qlt_le_weak, Qle_bool_iff in Hlt. congruence.
Qed.

Lemma max_doors_bound (subpanels : panel_t) (s : Z) (sd : subpanel_t) :
  In (s, sd) subpanels ->
  (List.length sd
   <= fold_right Nat.max 0%nat
        (map (fun kv => List.length (snd kv)) subpanels))%nat.
Proof.
  induction subpanels as [|kv l IH]; [intros []|].
  cbn [map fold_right]. intros [->|Hin]; [cbn [snd]; lia|].
  specialize (IH Hin). lia.
Qed.

(** X20: a figure is at least 12 wide and 6 high, at least 3 wide for
    every subpanel, and at least 2 and 1.5 for every door of any of its
    subpanels high. *)
Theorem figure_size_bounds (panel_name : text) (subpanels : panel_t)
    (show_lines : bool) (fig : figure) :
  diagram panel_name subpanels show_lines = Some fig ->
  12 <= fst (figsize fig) /\ 6 <= snd (figsize fig)
  /\ 3 * Qnat (List.length subpanels) <= fst (figsize fig)
  /\ forall s sd, In (s, sd) subpanels ->
       2 + 1.5 * Qnat (List.length sd) <= snd (figsize fig).
Proof.
  unfold diagram. destruct (List.length subpanels =? 0)%nat; [discriminate|].
  intros [= <-]. cbn [figsize fst snd].
  split; [apply qmax_bounds|]. split; [apply qmax_bounds|].
  split; [apply qmax_bounds|].
  intros s sd Hin. eapply Qle_trans; [|apply qmax_bounds].
  apply max_doors_bound, Qnat_le in Hin.
  set (m := fold_right Nat.max 0%nat _) in *. lra.
Qed.

Lemma figure_size_bounds_witness :
  exists fig,
    diagram (str "Gym") sample_panel false = Some fig
    /\ 2 + 1.5 * Qnat 5 <= snd (figsize fig).
Proof.
  eexists. split; [reflexivity|].
  destruct (@figure_size_bounds (str "Gym") sample_panel false _ eq_refl)
    as (_ & _ & _ & H).
  apply (H 3%Z sample_doors). left. reflexivity.
Defined.
